(** * Euler's method for dy/dx = k*y: the numerical core of [app.py]

    A shallow embedding of [euler_method], [create_step_table] and the
    computational part of [main] (validation, summary metrics, step table),
    followed by the properties the specification states about them.

    The Python code computes with [float].  The embedding is written once
    over an interface [PyNum] that lists the operations the code uses, each
    with the exceptions Python can raise from it.  Two instances are given:

    - [float_PyNum], IEEE binary64 on the kernel's primitive floats, with
      [ZeroDivisionError] from [/], [OverflowError] and [ValueError] from
      [int()] and from [math.exp], whose C library function is a parameter.
      Concrete runs of the code are evaluated on it.
    - [R_PyNum], exact real arithmetic.  It has no rounding, no infinities
      and no overflow, so nothing about the values or the termination of
      [euler_method] is concluded from it; it states the two properties of
      [main] that only compare, subtract and divide, and it inhabits the
      hypotheses of the theorems below.

    What is said of [euler_method] holds for every instance and whenever
    the call returns; where the order of numbers matters, the arithmetic is
    assumed to satisfy [ArithLaws], laws of the order that hold of the
    doubles. *)

From Stdlib Require Import Reals Lra Lia ZArith List String Bool Arith.
From Stdlib Require Import Floats Uint63.
Import ListNotations.

#[local] Set Warnings "-inexact-float".

Set Implicit Arguments.

(** ** Exceptions and the error monad *)

(** The Python exceptions the modelled code can raise. *)
Inductive exn : Set :=
| ZeroDivisionError
| OverflowError
| ValueError
| IndexError.

Inductive result (A : Type) : Type :=
| Ok (a : A)
| Raise (e : exn).

Arguments Ok {A} a.
Arguments Raise {A} e.

Definition bind {A B : Type} (m : result A) (f : A -> result B) : result B :=
  match m with
  | Ok a => f a
  | Raise e => Raise e
  end.

Declare Scope py_scope.
Delimit Scope py_scope with py.
Notation "x <- m ;; k" := (bind m (fun x => k))
  (at level 61, m at next level, right associativity) : py_scope.
Notation "' pat <- m ;; k" := (bind m (fun x => match x with pat => k end))
  (at level 61, pat pattern, m at next level, right associativity) : py_scope.
Local Open Scope py_scope.

(** ** Python lists and loops *)

(** [l[i]]: a negative index counts from the end, an index out of range
    raises [IndexError]. *)
Definition getitem {A : Type} (l : list A) (i : Z) : result A :=
  let len := Z.of_nat (List.length l) in
  let j := if (i <? 0)%Z then (i + len)%Z else i in
  if ((j <? 0) || (len <=? j))%Z then Raise IndexError
  else match nth_error l (Z.to_nat j) with
       | Some a => Ok a
       | None => Raise IndexError
       end.

(** [range(n)]: empty when [n <= 0]. *)
Definition range (n : Z) : list Z := map Z.of_nat (seq 0 (Z.to_nat n)).

(** [for i in l: body], threading the variables the body assigns. *)
Fixpoint for_in {S : Type} (l : list Z) (body : Z -> S -> result S) (s : S)
  : result S :=
  match l with
  | [] => Ok s
  | i :: l' => s' <- body i s ;; for_in l' body s'
  end.

(** ** The numeric interface *)

Class PyNum (F : Type) : Type := {
  add : F -> F -> F;
  sub : F -> F -> F;
  mul : F -> F -> F;
  (** [a / b] raises [ZeroDivisionError] when [b] is zero *)
  truediv : F -> F -> result F;
  (** [math.exp] raises [OverflowError] out of range *)
  math_exp : F -> result F;
  (** [abs] *)
  py_abs : F -> F;
  (** [int(x)] truncates toward zero; on floats it raises for inf and nan *)
  int : F -> result Z;
  (** an integer literal used where a float is expected *)
  of_int : Z -> F;
  (** [a <= b] *)
  le : F -> F -> bool;
  (** [a != b] *)
  ne : F -> F -> bool
}.

(** ** f-strings *)

(** The format specification of a replacement field: [:.Nf] or none. *)
Inductive format_spec : Set :=
| Fixed (places : nat)
| Default.

(** An f-string is a sequence of literal text and formatted values. *)
Inductive part (F : Type) : Type :=
| Text (s : string)
| Value (spec : format_spec) (v : F).

Arguments Text {F} s.
Arguments Value {F} spec v.

Definition fstring (F : Type) : Type := list (part F).

(** The string an f-string evaluates to, given how a value is printed
    under each format specification. *)
Definition render {F : Type} (format : format_spec -> F -> string)
  (f : fstring F) : string :=
  fold_right (fun p acc =>
                match p with
                | Text s => String.append s acc
                | Value spec v => String.append (format spec v) acc
                end) EmptyString f.

Definition format_spec_eqb (a b : format_spec) : bool :=
  match a, b with
  | Fixed m, Fixed n => Nat.eqb m n
  | Default, Default => true
  | _, _ => false
  end.

(** Every value of the f-string is printed with [places] decimals. *)
Definition fixed_precision {F : Type} (places : nat) (f : fstring F) : bool :=
  forallb (fun p => match p with
                    | Text _ => true
                    | Value spec _ => format_spec_eqb spec (Fixed places)
                    end) f.

Section Core.

Context {F : Type} `{PyNum F}.

(** ** euler_method (app.py, lines 7-51) *)

(** The variables the loop of [euler_method] updates. *)
Record euler_state : Type := {
  x_values : list F;
  y_euler : list F;
  y_analytical : list F;
  x_current : F;
  y_current : F
}.

(** [n_steps = int((x_final - x0) / h)] *)
Definition n_steps (x0 x_final h : F) : result Z :=
  q <- truediv (sub x_final x0) h ;;
  int q.

(** One iteration of the loop (lines 35-49). *)
Definition euler_body (k x0 y0 h : F) (i : Z) (s : euler_state)
  : result euler_state :=
  let y_next := add (y_current s) (mul (mul h k) (y_current s)) in
  let x_next := add (x_current s) h in
  e <- math_exp (mul k (sub x_next x0)) ;;
  Ok {| x_values := x_values s ++ [x_next];
        y_euler := y_euler s ++ [y_next];
        y_analytical := y_analytical s ++ [mul y0 e];
        x_current := x_next;
        y_current := y_next |}.

Definition euler_init (x0 y0 : F) : euler_state :=
  {| x_values := [x0];
     y_euler := [y0];
     y_analytical := [y0];
     x_current := x0;
     y_current := y0 |}.

Definition euler_method (k x0 y0 x_final h : F)
  : result (list F * list F * list F) :=
  n <- n_steps x0 x_final h ;;
  s <- for_in (range n) (euler_body k x0 y0 h) (euler_init x0 y0) ;;
  Ok (x_values s, y_euler s, y_analytical s).

(** ** create_step_table (app.py, lines 53-84) *)

(** One dictionary of [steps_data]; the fields are the keys ['Step'], ['x'],
    ['y (Euler)'], ['y (Analytical)'], ['dy/dx = ky'], ['Error'] and
    ['Next y']. *)
Record step_row : Type := {
  Step : Z;
  col_x : fstring F;
  col_y_euler : fstring F;
  col_y_analytical : fstring F;
  col_dydx : fstring F;
  col_error : fstring F;
  col_next_y : fstring F
}.

(** The body of the loop over [range(len(x_values))] (lines 60-82). *)
Definition table_body (xs ye ya : list F) (k h : F) (i : Z)
  (steps_data : list step_row) : result (list step_row) :=
  if (i =? 0)%Z then
    yi <- getitem ye i ;;
    let derivative := mul k yi in
    xi <- getitem xs i ;;
    yi' <- getitem ye i ;;
    ai <- getitem ya i ;;
    yi'' <- getitem ye i ;;
    ai' <- getitem ya i ;;
    Ok (steps_data ++
        [{| Step := i;
            col_x := [Value (Fixed 4) xi];
            col_y_euler := [Value (Fixed 6) yi'];
            col_y_analytical := [Value (Fixed 6) ai];
            col_dydx := [Value (Fixed 6) derivative];
            col_error := [Value (Fixed 6) (py_abs (sub yi'' ai'))];
            col_next_y := [Text "Initial value"] |}])
  else
    yp <- getitem ye (i - 1) ;;
    let derivative := mul k yp in
    yp' <- getitem ye (i - 1) ;;
    let next_y_calc :=
      [Value (Fixed 6) yp'; Text " + "; Value Default h; Text " × ";
       Value (Fixed 6) derivative] in
    xi <- getitem xs i ;;
    yi <- getitem ye i ;;
    ai <- getitem ya i ;;
    yi' <- getitem ye i ;;
    ai' <- getitem ya i ;;
    Ok (steps_data ++
        [{| Step := i;
            col_x := [Value (Fixed 4) xi];
            col_y_euler := [Value (Fixed 6) yi];
            col_y_analytical := [Value (Fixed 6) ai];
            col_dydx := [Value (Fixed 6) derivative];
            col_error := [Value (Fixed 6) (py_abs (sub yi' ai'))];
            col_next_y := next_y_calc |}]).

Definition create_step_table (xs ye ya : list F) (k h : F)
  : result (list step_row) :=
  for_in (range (Z.of_nat (List.length xs))) (table_body xs ye ya k h) [].

(** ** main (app.py, lines 86-252) *)

(** What [main] does that the specification speaks about: the error
    messages, the two calls into the core, the summary metrics and the
    table.  Titles, markdown, charts and the error statistics after the
    table are presentation and are left out. *)
Inductive event : Type :=
| St_error (msg : string)
| Call_euler_method (k x0 y0 x_final h : F)
| St_metric (label : string) (value : fstring F)
| Call_create_step_table (xs ye ya : list F) (k h : F)
| St_dataframe (rows : list step_row).

(** [final_error = abs(y_euler[-1] - y_analytical[-1])] (line 166) *)
Definition final_error (ye ya : list F) : result F :=
  e <- getitem ye (-1) ;;
  a <- getitem ya (-1) ;;
  Ok (py_abs (sub e a)).

(** [(final_error / abs(y_analytical[-1])) * 100 if y_analytical[-1] != 0
    else 0] (line 167) *)
Definition relative_error (fe : F) (ya : list F) : result F :=
  a <- getitem ya (-1) ;;
  if ne a (of_int 0) then
    a' <- getitem ya (-1) ;;
    q <- truediv fe (py_abs a') ;;
    Ok (mul q (of_int 100))
  else Ok (of_int 0).

(** The rows [steps_df.head(20)] keeps. *)
Definition head (n : nat) (rows : list step_row) : list step_row :=
  firstn n rows.

(** The events after a successful [euler_method], from the first metric to
    the table (lines 153-195), and whether an exception was raised up to
    there; the charts and error statistics that follow (lines 197-237) are
    not modelled, so [Ok tt] says that line 195 was reached, not that the
    run ended. *)
Definition show_results (xs ye ya : list F) (k h : F) : list event * result unit :=
  match getitem ye (-1) with
  | Raise e => ([], Raise e)
  | Ok e_last =>
    let t1 := [St_metric "Final Euler Value" [Value (Fixed 6) e_last]] in
    match getitem ya (-1) with
    | Raise e => (t1, Raise e)
    | Ok a_last =>
      let t2 := t1 ++ [St_metric "Final Analytical Value" [Value (Fixed 6) a_last]] in
      match (fe <- final_error ye ya ;;
             re <- relative_error fe ya ;; Ok (fe, re)) with
      | Raise e => (t2, Raise e)
      | Ok (fe, re) =>
        let t3 := t2 ++
          [St_metric "Final Absolute Error" [Value (Fixed 6) fe];
           St_metric "Final Relative Error" [Value (Fixed 4) re; Text "%"];
           Call_create_step_table xs ye ya k h] in
        match create_step_table xs ye ya k h with
        | Raise e => (t3, Raise e)
        | Ok steps_df =>
          if (20 <? List.length steps_df)%nat then
            (t3 ++ [St_dataframe (head 20 steps_df); St_dataframe steps_df], Ok tt)
          else (t3 ++ [St_dataframe steps_df], Ok tt)
        end
      end
    end
  end.

(** [main] on the five values read from the form: the events in order, up
    to the table, and the outcome: [Ok tt] after an error message (the
    [return] of lines 144 and 148) or once the table is shown, [Raise e]
    when an exception escaped before. *)
Definition main (k x0 y0 x_final h : F) : list event * result unit :=
  if le x_final x0 then
    ([St_error "Final x value must be greater than initial x value"], Ok tt)
  else if le h (of_int 0) then
    ([St_error "Step size must be positive"], Ok tt)
  else
    let t := [Call_euler_method k x0 y0 x_final h] in
    match euler_method k x0 y0 x_final h with
    | Raise e => (t, Raise e)
    | Ok (xs, ye, ya) =>
      let (t', r) := show_results xs ye ya k h in (t ++ t', r)
    end.

(** The integrator was called during a run. *)
Definition is_call_euler_method (e : event) : bool :=
  match e with
  | Call_euler_method _ _ _ _ _ => true
  | _ => false
  end.

(** Each value of a table row is printed with a fixed number of decimals:
    4 for x, 6 for everything else, the update formula included. *)
Definition row_fixed_precision (r : step_row) : bool :=
  fixed_precision 4 (col_x r) && fixed_precision 6 (col_y_euler r) &&
  fixed_precision 6 (col_y_analytical r) && fixed_precision 6 (col_dydx r) &&
  fixed_precision 6 (col_error r) && fixed_precision 6 (col_next_y r).

End Core.

Arguments euler_state F : clear implicits.
Arguments step_row F : clear implicits.
Arguments event F : clear implicits.

(** ** The error sequence of main (app.py, line 212) *)

Section ErrorSequence.

Context {F : Type} `{PyNum F}.

(** [errors = [abs(y_euler[i] - y_analytical[i])
               for i in range(len(x_values))]] *)
Definition errors (xs ye ya : list F) : result (list F) :=
  for_in (range (Z.of_nat (List.length xs)))
    (fun i acc =>
       e <- getitem ye i ;;
       a <- getitem ya i ;;
       Ok (acc ++ [py_abs (sub e a)]))
    [].

End ErrorSequence.

(** An error message was shown during a run. *)
Definition is_st_error {F : Type} `{PyNum F} (e : event F) : bool :=
  match e with
  | St_error _ => true
  | _ => false
  end.

(** ** The instance of real numbers *)

Local Open Scope R_scope.

(** [int(r)]: the integer part toward zero. *)
Definition R_int (r : R) : Z :=
  if Rle_dec 0 r then Int_part r else (- Int_part (- r))%Z.

(** Exact real arithmetic: the operations of the reals, division raising
    [ZeroDivisionError] on a zero divisor as the code's does.  Reals have no
    rounding, no infinity and no NaN, so [math_exp] and [int] cannot raise
    here as they do on doubles ([float_PyNum] below has those paths). *)
#[export] Instance R_PyNum : PyNum R := {|
  add := Rplus;
  sub := Rminus;
  mul := Rmult;
  truediv := fun a b =>
    if Req_dec_T b 0 then Raise ZeroDivisionError else Ok (a / b);
  math_exp := fun r => Ok (exp r);
  py_abs := Rabs;
  int := fun r => Ok (R_int r);
  of_int := IZR;
  le := fun a b => if Rle_dec a b then true else false;
  ne := fun a b => if Req_dec_T a b then false else true
|}.

(** ** The instance of IEEE doubles *)

(** [int(x)] of a finite double: the integer part toward zero of
    [(-1)^s * m * 2^e]. *)
Definition float_int (x : float) : Z :=
  match Prim2SF x with
  | S754_finite s m e =>
      let v := match e with
               | Z0 => Zpos m
               | Zpos _ => Z.shiftl (Zpos m) e
               | Zneg p => Z.shiftr (Zpos m) (Zpos p)
               end in
      if s then Z.opp v else v
  | _ => 0%Z
  end.

(** The double of an integer literal of the code (0 and 100; any integer
    below 2^63 in magnitude is converted exactly as Python does). *)
Definition float_of_int (z : Z) : float :=
  match z with
  | Z0 => PrimFloat.zero
  | Zpos _ => PrimFloat.of_uint63 (Uint63.of_Z z)
  | Zneg p => PrimFloat.opp (PrimFloat.of_uint63 (Uint63.of_Z (Zpos p)))
  end.

(** Python's [float] operations.  [/] raises [ZeroDivisionError] when the
    divisor compares equal to zero, [-0.0] included.  [libm_exp] is the C
    library's [exp]; [math.exp] wraps it as CPython does: a NaN result of
    an argument that is not NaN is a [ValueError], an infinite result of a
    finite argument an [OverflowError] (the wrapper's test of [errno] adds
    nothing for [exp], whose finite results are never errors).  [int]
    raises [ValueError] on a NaN and [OverflowError] on an infinity. *)
Definition float_PyNum (libm_exp : float -> float) : PyNum float := {|
  add := PrimFloat.add;
  sub := PrimFloat.sub;
  mul := PrimFloat.mul;
  truediv := fun a b =>
    if PrimFloat.eqb b PrimFloat.zero then Raise ZeroDivisionError
    else Ok (PrimFloat.div a b);
  math_exp := fun x =>
    let r := libm_exp x in
    if PrimFloat.is_nan r && negb (PrimFloat.is_nan x) then Raise ValueError
    else if PrimFloat.is_infinity r && PrimFloat.is_finite x
         then Raise OverflowError
         else Ok r;
  py_abs := PrimFloat.abs;
  int := fun x =>
    if PrimFloat.is_nan x then Raise ValueError
    else if PrimFloat.is_infinity x then Raise OverflowError
    else Ok (float_int x);
  of_int := float_of_int;
  le := PrimFloat.leb;
  ne := fun a b => negb (PrimFloat.eqb a b)
|}.

(** ** Vocabulary of the statements *)

Section Laws.

Context {F : Type} `{PyNum F}.

(** [a] is a number: not a NaN, which is the one value not [<=] itself. *)
Definition is_number (a : F) : Prop := le a a = true.

(** Laws of the order that the statements about monotonicity and about the
    sign of the step count rest on.  Each holds of the doubles under
    round-to-nearest, where an operation is monotone and a NaN result comes
    from a NaN operand or from an undefined form such as [inf - inf] or
    [0 * inf]; [value q] is the real number a finite [q] denotes. *)
Record ArithLaws (value : F -> R) : Prop := {
  law_zero_number : is_number (of_int 0);
  law_le_total : forall a b,
    is_number a -> is_number b -> le a b = false -> le b a = true;
  law_add_number : forall a b,
    is_number (add a b) -> is_number a /\ is_number b;
  law_sub_number : forall a b,
    is_number (sub a b) -> is_number a /\ is_number b;
  law_mul_number : forall a b,
    is_number (mul a b) -> is_number a /\ is_number b;
  law_div_number : forall a b q,
    truediv a b = Ok q -> is_number q -> is_number a /\ is_number b;
  law_exp_number : forall u e,
    math_exp u = Ok e -> is_number e -> is_number u;
  law_int_number : forall q n, int q = Ok n -> is_number q;
  law_add_nonneg : forall a b,
    le (of_int 0) a = true -> le (of_int 0) b = true ->
    is_number (add a b) -> le (of_int 0) (add a b) = true;
  law_add_increasing : forall y d,
    le (of_int 0) d = true -> is_number (add y d) -> le y (add y d) = true;
  law_sub_nonneg : forall a b,
    le a b = true -> is_number (sub b a) -> le (of_int 0) (sub b a) = true;
  law_sub_nonpos : forall a b,
    le a b = true -> is_number (sub a b) -> le (sub a b) (of_int 0) = true;
  law_sub_monotone : forall a b c,
    le a b = true -> is_number (sub a c) -> is_number (sub b c) ->
    le (sub a c) (sub b c) = true;
  law_mul_nonneg : forall a b,
    le (of_int 0) a = true -> le (of_int 0) b = true ->
    is_number (mul a b) -> le (of_int 0) (mul a b) = true;
  law_mul_monotone : forall c a b,
    le (of_int 0) c = true -> le a b = true ->
    is_number (mul c a) -> is_number (mul c b) ->
    le (mul c a) (mul c b) = true;
  law_mul_ge_one : forall y e,
    le (of_int 0) y = true -> le (of_int 1) e = true ->
    is_number (mul y e) -> le y (mul y e) = true;
  law_div_nonneg : forall a b q,
    le (of_int 0) a = true -> le (of_int 0) b = true ->
    truediv a b = Ok q -> is_number q -> le (of_int 0) q = true;
  law_div_nonpos : forall a b q,
    le a (of_int 0) = true -> le (of_int 0) b = true ->
    truediv a b = Ok q -> is_number q -> le q (of_int 0) = true;
  law_exp_monotone : forall u v eu ev,
    le u v = true -> math_exp u = Ok eu -> math_exp v = Ok ev ->
    le eu ev = true;
  law_exp_ge_one : forall u e,
    le (of_int 0) u = true -> math_exp u = Ok e -> le (of_int 1) e = true;
  law_int_truncates : forall q n, int q = Ok n -> n = R_int (value q);
  law_value_nonneg : forall q n,
    int q = Ok n -> le (of_int 0) q = true -> 0 <= value q;
  law_value_nonpos : forall q n,
    int q = Ok n -> le q (of_int 0) = true -> value q <= 0
}.

End Laws.

Section Vocabulary.

Context {F : Type} `{PyNum F}.

(** Each element of [l] but the first is [f] of the one before it. *)
Definition adjacent (f : F -> F) (l : list F) : Prop :=
  forall i a, nth_error l i = Some a -> (S i < List.length l)%nat ->
              nth_error l (S i) = Some (f a).

(** The closed form was appended for every grid point after the first. *)
Definition analytical_at (k x0 y0 : F) (xs ya : list F) : Prop :=
  forall i xi, nth_error xs (S i) = Some xi ->
    exists e, math_exp (mul k (sub xi x0)) = Ok e /\
              nth_error ya (S i) = Some (mul y0 e).

(** The loop invariant of [euler_method]. *)
Definition euler_inv (k x0 y0 h : F) (s : euler_state F) : Prop :=
  (exists xs', x_values s = xs' ++ [x_current s]) /\
  (exists ys', y_euler s = ys' ++ [y_current s]) /\
  List.length (y_euler s) = List.length (x_values s) /\
  List.length (y_analytical s) = List.length (x_values s) /\
  nth_error (x_values s) 0 = Some x0 /\
  nth_error (y_euler s) 0 = Some y0 /\
  nth_error (y_analytical s) 0 = Some y0 /\
  adjacent (fun x => add x h) (x_values s) /\
  adjacent (fun y => add y (mul (mul h k) y)) (y_euler s) /\
  analytical_at k x0 y0 (x_values s) (y_analytical s).

(** What row [i] of the table holds, read off the trajectory. *)
Definition row_spec (xs ye ya : list F) (k h : F) (i : nat)
  (row : step_row F) : Prop :=
  Step row = Z.of_nat i /\
  exists xi yi ai,
    nth_error xs i = Some xi /\ nth_error ye i = Some yi /\
    nth_error ya i = Some ai /\
    col_x row = [Value (Fixed 4) xi] /\
    col_y_euler row = [Value (Fixed 6) yi] /\
    col_y_analytical row = [Value (Fixed 6) ai] /\
    col_error row = [Value (Fixed 6) (py_abs (sub yi ai))] /\
    match i with
    | O =>
        col_dydx row = [Value (Fixed 6) (mul k yi)] /\
        col_next_y row = [Text "Initial value"]
    | S j =>
        exists yp,
          nth_error ye j = Some yp /\
          col_dydx row = [Value (Fixed 6) (mul k yp)] /\
          col_next_y row =
            [Value (Fixed 6) yp; Text " + "; Value Default h; Text " × ";
             Value (Fixed 6) (mul k yp)]
    end.

End Vocabulary.

(** Equality of two explicit lists or tuples of lists, element by element. *)
Ltac split_lists :=
  repeat match goal with
         | |- (_, _) = (_, _) => apply f_equal2
         | |- _ :: _ = _ :: _ => apply f_equal2
         | |- @nil _ = @nil _ => reflexivity
         end.

(** * Properties *)

(** ** Loops and lists *)

Lemma for_in_app {S : Type} (body : Z -> S -> result S) (l1 l2 : list Z) (s : S) :
  for_in (l1 ++ l2) body s = (s' <- for_in l1 body s ;; for_in l2 body s')%py.
Proof.
  revert s; induction l1 as [|i l1 IH]; intros s; simpl; [reflexivity|].
  destruct (body i s) as [s'|e]; simpl; [apply IH | reflexivity].
Qed.

Lemma range_of_nat_S (n : nat) :
  range (Z.of_nat (S n)) = range (Z.of_nat n) ++ [Z.of_nat n].
Proof.
  unfold range. rewrite !Nat2Z.id, seq_S, map_app. reflexivity.
Qed.

Lemma range_to_nat (n : Z) : range n = range (Z.of_nat (Z.to_nat n)).
Proof. unfold range. now rewrite Nat2Z.id. Qed.

Lemma range_nonpos (n : Z) : (n <= 0)%Z -> range n = [].
Proof.
  intros Hn. unfold range.
  replace (Z.to_nat n) with 0%nat by lia. reflexivity.
Qed.

Lemma length_range (n : nat) : List.length (range (Z.of_nat n)) = n.
Proof. unfold range. now rewrite length_map, length_seq, Nat2Z.id. Qed.

Lemma nth_error_map_seq {A : Type} (f : nat -> A) (a n i : nat) :
  (i < n)%nat -> nth_error (map f (seq a n)) i = Some (f (a + i)%nat).
Proof.
  intros Hi. rewrite nth_error_map, nth_error_seq.
  destruct (Nat.ltb_spec i n); [reflexivity | lia].
Qed.

Lemma getitem_nat {A : Type} (l : list A) (i : nat) (a : A) :
  nth_error l i = Some a -> getitem l (Z.of_nat i) = Ok a.
Proof.
  intros Hi. assert (Hlt : (i < List.length l)%nat)
    by (apply nth_error_Some; congruence).
  unfold getitem.
  destruct (Z.ltb_spec (Z.of_nat i) 0); [lia|].
  destruct (Z.ltb_spec (Z.of_nat i) 0); [lia|].
  destruct (Z.leb_spec (Z.of_nat (List.length l)) (Z.of_nat i)); [lia|].
  simpl. now rewrite Nat2Z.id, Hi.
Qed.

Lemma getitem_last {A : Type} (l : list A) (a : A) :
  getitem (l ++ [a]) (-1) = Ok a.
Proof.
  unfold getitem. rewrite length_app. cbn [List.length].
  change (-1 <? 0)%Z with true. cbv iota.
  replace (-1 + Z.of_nat (List.length l + 1))%Z
    with (Z.of_nat (List.length l)) by lia.
  destruct (Z.ltb_spec (Z.of_nat (List.length l)) 0); [lia|].
  destruct (Z.leb_spec (Z.of_nat (List.length l + 1))
              (Z.of_nat (List.length l))); [lia|].
  cbn [orb]. rewrite Nat2Z.id, nth_error_app2, Nat.sub_diag by lia.
  reflexivity.
Qed.

Lemma nth_error_lt {A : Type} (l : list A) (i : nat) :
  (i < List.length l)%nat -> exists a, nth_error l i = Some a.
Proof.
  intros Hi. destruct (nth_error l i) as [a|] eqn:E; [now exists a|].
  apply nth_error_None in E. lia.
Qed.

Arguments nth_error_lt {A} l [i] _.

Lemma getitem_Z {A : Type} (l : list A) (i : Z) (a : A) :
  (0 <= i)%Z -> nth_error l (Z.to_nat i) = Some a -> getitem l i = Ok a.
Proof.
  intros Hi Hn. rewrite <- (Z2Nat.id i Hi). now apply getitem_nat.
Qed.


(** ** euler_method over any arithmetic

    What holds of the trajectory whenever [euler_method] returns, whatever
    the arithmetic is (floating point included): these facts follow from
    the shape of the loop alone. *)

Section AnyArithmetic.

Context {F : Type} `{PyNum F}.

Variables k x0 y0 h : F.

Lemma adjacent_snoc (f : F -> F) (l : list F) (a : F) :
  adjacent f (l ++ [a]) -> adjacent f ((l ++ [a]) ++ [f a]).
Proof.
  intros Hadj i b Hi Hlt. rewrite !length_app in Hlt. cbn [List.length] in Hlt.
  destruct (Nat.eq_dec i (List.length l)) as [-> | Hne].
  - rewrite nth_error_app1 in Hi by (rewrite length_app; cbn [List.length]; lia).
    rewrite nth_error_app2, Nat.sub_diag in Hi by lia.
    injection Hi as <-.
    rewrite nth_error_app2 by (rewrite length_app; cbn [List.length]; lia).
    rewrite length_app. cbn [List.length].
    now replace (S (List.length l) - (List.length l + 1))%nat with 0%nat by lia.
  - rewrite nth_error_app1 in Hi by (rewrite length_app; cbn [List.length]; lia).
    rewrite nth_error_app1 by (rewrite length_app; cbn [List.length]; lia).
    apply Hadj; [exact Hi | rewrite length_app; cbn [List.length]; lia].
Qed.

Lemma euler_inv_init : euler_inv k x0 y0 h (euler_init x0 y0).
Proof.
  unfold euler_inv, euler_init. cbn.
  split; [now exists []|]. split; [now exists []|].
  repeat split; try (intros i a Hi Hlt; cbn in Hlt; lia).
  intros i xi Hi. now destruct i.
Qed.

Lemma nth_error_snoc_0 (l : list F) (a b : F) :
  nth_error l 0 = Some a -> nth_error (l ++ [b]) 0 = Some a.
Proof. now destruct l. Qed.

Lemma euler_body_inv (i : Z) (s s' : euler_state F) :
  euler_inv k x0 y0 h s -> euler_body k x0 y0 h i s = Ok s' ->
  euler_inv k x0 y0 h s' /\ List.length (x_values s') = S (List.length (x_values s)).
Proof.
  intros ([xs' Hxs] & [ys' Hys] & Ly & La & Hx0 & Hy0 & Ha0 & Ax & Ay & An) Hb.
  unfold euler_body in Hb.
  destruct (math_exp (mul k (sub (add (x_current s) h) x0))) as [e|] eqn:He;
    [|discriminate].
  cbn [bind] in Hb. injection Hb as <-.
  cbn [x_values].
  split; [|rewrite length_app; cbn [List.length]; lia].
  unfold euler_inv. cbn [x_values y_euler y_analytical x_current y_current].
  rewrite !length_app. cbn [List.length].
  split; [now eexists|]. split; [now eexists|].
  split; [lia|]. split; [lia|].
  split; [now apply nth_error_snoc_0|].
  split; [now apply nth_error_snoc_0|].
  split; [now apply nth_error_snoc_0|].
  split; [|split].
  - rewrite Hxs in Ax |- *.
    exact (@adjacent_snoc (fun x => add x h) _ _ Ax).
  - rewrite Hys in Ay |- *.
    exact (@adjacent_snoc (fun y => add y (mul (mul h k) y)) _ _ Ay).
  - intros j xj Hj.
    destruct (Nat.lt_ge_cases (S j) (List.length (x_values s))) as [Hlt | Hge].
    + rewrite nth_error_app1 in Hj by lia.
      destruct (An j xj Hj) as (e' & He' & Hn).
      exists e'. split; [exact He'|]. rewrite nth_error_app1 by lia. exact Hn.
    + assert (Hlen : (S j < List.length (x_values s ++ [add (x_current s) h]))%nat)
        by (apply nth_error_Some; congruence).
      rewrite length_app in Hlen. cbn [List.length] in Hlen.
      assert (Hj' : S j = List.length (x_values s)) by lia.
      rewrite Hj', nth_error_app2, Nat.sub_diag in Hj by lia.
      injection Hj as <-. exists e. split; [exact He|].
      rewrite Hj', nth_error_app2 by lia.
      now replace (List.length (x_values s) - List.length (y_analytical s))%nat
        with 0%nat by lia.
Qed.

Lemma euler_loop_inv (l : list Z) (s s' : euler_state F) :
  euler_inv k x0 y0 h s -> for_in l (euler_body k x0 y0 h) s = Ok s' ->
  euler_inv k x0 y0 h s' /\
  List.length (x_values s') = (List.length l + List.length (x_values s))%nat.
Proof.
  revert s. induction l as [|i l IH]; intros s Hinv Hloop.
  - injection Hloop as <-. now split.
  - cbn [for_in] in Hloop.
    destruct (euler_body k x0 y0 h i s) as [s1|] eqn:Hb; [|discriminate].
    cbn [bind] in Hloop.
    destruct (euler_body_inv _ Hinv Hb) as [Hinv1 Hlen1].
    destruct (IH s1 Hinv1 Hloop) as [Hinv' Hlen'].
    split; [exact Hinv'|]. cbn [List.length]. lia.
Qed.

(** Whenever [euler_method] returns: [n + 1] points in each list, the
    initial condition first, and both recurrences and the closed form
    between neighbours. *)
Lemma euler_method_returns (x_final : F) (xs ye ya : list F) :
  euler_method k x0 y0 x_final h = Ok (xs, ye, ya) ->
  exists n,
    n_steps x0 x_final h = Ok n /\
    List.length xs = S (Z.to_nat n) /\
    List.length ye = List.length xs /\ List.length ya = List.length xs /\
    nth_error xs 0 = Some x0 /\ nth_error ye 0 = Some y0 /\
    nth_error ya 0 = Some y0 /\
    adjacent (fun x => add x h) xs /\
    adjacent (fun y => add y (mul (mul h k) y)) ye /\
    analytical_at k x0 y0 xs ya.
Proof.
  unfold euler_method. intros He.
  destruct (n_steps x0 x_final h) as [n|] eqn:Hn; [|discriminate].
  cbn [bind] in He.
  destruct (for_in (range n) (euler_body k x0 y0 h) (euler_init x0 y0))
    as [s|] eqn:Hloop; [|discriminate].
  cbn [bind] in He. injection He as <- <- <-.
  destruct (euler_loop_inv _ euler_inv_init Hloop) as [Hinv Hlen].
  rewrite range_to_nat, length_range in Hlen. cbn in Hlen.
  destruct Hinv as (_ & _ & Ly & La & Hx0 & Hy0 & Ha0 & Ax & Ay & An).
  exists n. repeat split; try assumption. lia.
Qed.

End AnyArithmetic.

(** ** Truncation on the reals *)

Lemma R_int_nonneg (r : R) : 0 <= r -> R_int r = Int_part r.
Proof. intros Hr. unfold R_int. destruct (Rle_dec 0 r); [reflexivity | contradiction]. Qed.

Lemma Int_part_nonneg (r : R) : 0 <= r -> (0 <= Int_part r)%Z.
Proof.
  intros Hr. destruct (base_Int_part r) as [_ Hlt].
  assert (Hz : -1 < IZR (Int_part r)) by lra.
  apply lt_IZR in Hz. lia.
Qed.

Lemma R_int_nonpos (r : R) : r <= 0 -> (R_int r <= 0)%Z.
Proof.
  intros Hr. unfold R_int. destruct (Rle_dec 0 r) as [H0|H0].
  - destruct (base_Int_part r) as [Hle _].
    assert (Hz : IZR (Int_part r) <= 0) by lra.
    apply le_IZR in Hz. exact Hz.
  - assert (Hp : (0 <= Int_part (- r))%Z) by (apply Int_part_nonneg; lra). lia.
Qed.

(** [int] rounds toward zero: the result lies between 0 and [r] and is less
    than one away from [r]. *)
Lemma R_int_truncates (r : R) :
  Rabs (IZR (R_int r)) <= Rabs r /\ Rabs (r - IZR (R_int r)) < 1 /\
  0 <= r * IZR (R_int r).
Proof.
  unfold R_int. destruct (Rle_dec 0 r) as [H0|H0].
  - destruct (base_Int_part r) as [Hle Hlt].
    pose proof (Int_part_nonneg H0) as Hz. apply IZR_le in Hz.
    rewrite !Rabs_pos_eq by lra. repeat split; try lra. nra.
  - destruct (base_Int_part (- r)) as [Hle Hlt].
    assert (Hz : (0 <= Int_part (- r))%Z) by (apply Int_part_nonneg; lra).
    apply IZR_le in Hz. rewrite opp_IZR.
    rewrite (Rabs_left r) by lra.
    rewrite (Rabs_left1 (- IZR (Int_part (- r)))) by lra.
    rewrite (Rabs_left1 (r - - IZR (Int_part (- r)))) by lra.
    repeat split; try lra. nra.
Qed.

Lemma R_int_between (r : R) (z : Z) :
  (0 <= z)%Z -> IZR z <= r < IZR z + 1 -> R_int r = z.
Proof.
  intros Hz [Hlo Hhi]. apply IZR_le in Hz.
  rewrite R_int_nonneg by lra.
  symmetry. apply Int_part_spec. lra.
Qed.


(** [int] truncates toward zero on both sides: [int(-1.5) = -1]. *)
Example R_int_negative : R_int (- (3 / 2)) = (-1)%Z.
Proof.
  unfold R_int. destruct (Rle_dec 0 (- (3 / 2))) as [Hle | _]; [lra|].
  rewrite <- (Int_part_spec (- - (3 / 2)) 1); [reflexivity | lra].
Qed.


(** ** Facts of the real instance *)

Lemma le_R_true (a b : R) : a <= b -> le a b = true.
Proof. intros Hab. cbn [le R_PyNum]. now destruct (Rle_dec a b). Qed.

Lemma le_R_false (a b : R) : b < a -> le a b = false.
Proof. intros Hab. cbn [le R_PyNum]. destruct (Rle_dec a b); [lra | reflexivity]. Qed.


Lemma le_R_refl (a : R) : le a a = true.
Proof. apply le_R_true. lra. Qed.

Lemma le_R_inv (a b : R) : le a b = true -> a <= b.
Proof. cbn [le R_PyNum]. now destruct (Rle_dec a b). Qed.

Lemma truediv_R_inv (a b q : R) : truediv a b = Ok q -> b <> 0 /\ q = a / b.
Proof.
  cbn [truediv R_PyNum]. destruct (Req_dec_T b 0); [discriminate|].
  intros E. injection E as <-. now split.
Qed.

Lemma math_exp_R_inv (u e : R) : math_exp u = Ok e -> e = exp u.
Proof. cbn [math_exp R_PyNum]. intros E. now injection E as <-. Qed.

(** Exact real arithmetic satisfies the laws, a real being its own value. *)
Lemma R_laws : ArithLaws (fun r : R => r).
Proof.
  assert (Z0 : @of_int R _ 0 = 0) by reflexivity.
  assert (Z1 : @of_int R _ 1 = 1) by reflexivity.
  constructor; unfold is_number; intros;
    rewrite ?Z0, ?Z1 in *;
    repeat match goal with
           | E : le _ _ = true |- _ => apply le_R_inv in E
           | E : truediv _ _ = Ok _ |- _ =>
               apply truediv_R_inv in E; destruct E as [? ->]
           | E : math_exp _ = Ok _ |- _ => apply math_exp_R_inv in E; subst
           | |- _ /\ _ => split
           | |- le ?a ?a = true => apply le_R_refl
           end;
    cbn [add sub mul R_PyNum] in *.
  - (* le_total *)
    match goal with
    | E : le ?a ?b = false |- _ =>
        cbn [le R_PyNum] in E; destruct (Rle_dec a b); [discriminate|]
    end.
    apply le_R_true. lra.
  - apply le_R_true. lra.
  - apply le_R_true. lra.
  - apply le_R_true. lra.
  - apply le_R_true. lra.
  - apply le_R_true. lra.
  - apply le_R_true. now apply Rmult_le_pos.
  - apply le_R_true. now apply Rmult_le_compat_l.
  - apply le_R_true. nra.
  - apply le_R_true. unfold Rdiv.
    assert (0 < / b) by (apply Rinv_0_lt_compat; lra). nra.
  - apply le_R_true. unfold Rdiv.
    assert (0 < / b) by (apply Rinv_0_lt_compat; lra). nra.
  - apply le_R_true.
    match goal with
    | E : ?u <= ?v |- _ =>
        destruct E as [E | E];
          [apply Rlt_le; now apply exp_increasing | rewrite E; lra]
    end.
  - apply le_R_true. pose proof (exp_ineq1_le u). lra.
  - (* int_truncates *)
    match goal with
    | E : int _ = Ok _ |- _ => cbn [int R_PyNum] in E; now injection E as <-
    end.
  - assumption.
  - assumption.
Qed.

(** ** Concrete runs on the reals *)

(** Runs the loop of [euler_method] on explicit real inputs, once the step
    count is known. *)
Ltac run_euler_method n :=
  unfold euler_method, n_steps; cbn [truediv sub int R_PyNum];
  match goal with
  | |- context [Req_dec_T ?h 0] => destruct (Req_dec_T h 0); [lra|]
  end;
  cbn [bind];
  match goal with
  | |- context [R_int ?q] =>
      rewrite (@R_int_between q n) by (try lia; lra)
  end;
  cbv [range Z.to_nat Pos.to_nat Pos.iter_op Nat.add seq map Z.of_nat
       Pos.of_succ_nat Pos.succ];
  cbn [for_in bind]; unfold euler_body, euler_init;
  cbn [bind math_exp add sub mul R_PyNum x_values y_euler y_analytical
       x_current y_current app];
  apply f_equal.

(** The first scenario of the specification: [k = 0.1], [x0 = 0], [y0 = 1],
    [x_final = 1], [h = 0.5] gives two steps. *)
Example euler_method_scenario_1 :
  euler_method (1 / 10) 0 1 1 (1 / 2) =
  Ok ([0; 1 / 2; 1], [1; 21 / 20; 441 / 400],
      [1; exp (1 / 20); exp (1 / 10)]).
Proof.
  run_euler_method 2%Z.
  split_lists; try lra; rewrite Rmult_1_l; apply f_equal; lra.
Qed.

(** The same grid with [k = 0]: nothing is added at any step. *)
Example euler_method_scenario_constant :
  euler_method 0 0 3 1 (1 / 2) = Ok ([0; 1 / 2; 1], [3; 3; 3], [3; 3; 3]).
Proof.
  run_euler_method 2%Z.
  split_lists; try lra;
    match goal with
    | |- 3 * exp ?u = 3 => replace u with 0 by lra; rewrite exp_0; lra
    end.
Qed.

(** A step size that does not divide the interval: [h = 0.4] on [0, 1]
    gives two steps and the grid ends at 0.8. *)
Example euler_method_scenario_short_grid :
  euler_method (1 / 10) 0 1 1 (2 / 5) =
  Ok ([0; 2 / 5; 4 / 5], [1; 26 / 25; 676 / 625],
      [1; exp (1 / 25); exp (2 / 25)]).
Proof.
  run_euler_method 2%Z.
  split_lists; try lra; rewrite Rmult_1_l; apply f_equal; lra.
Qed.

(** A direct call with [x_final <= x0]: no step. *)
Example euler_method_scenario_no_step :
  n_steps 5 3 (1 / 2) = Ok (-4)%Z /\
  euler_method (1 / 10) 5 1 3 (1 / 2) = Ok ([5], [1], [1]).
Proof.
  assert (E : R_int ((3 - 5) / (1 / 2)) = (-4)%Z).
  { unfold R_int. destruct (Rle_dec 0 ((3 - 5) / (1 / 2))) as [Hle | _]; [lra|].
    rewrite <- (Int_part_spec (- ((3 - 5) / (1 / 2))) 4); [reflexivity | lra]. }
  unfold euler_method, n_steps. cbn [truediv sub int R_PyNum].
  destruct (Req_dec_T (1 / 2) 0); [lra|]. cbn [bind]. rewrite E.
  split; reflexivity.
Qed.

(** ** euler_method *)

(** C1: whatever the arithmetic, the Euler sequence [euler_method] returns
    satisfies [yEuler[i+1] = yEuler[i] + h*k*yEuler[i]] and the grid
    [x[i+1] = x[i] + h], for every index [i] with [0 <= i < n], [n] the
    step count. *)
Theorem euler_method_recurrence {F : Type} `{PyNum F}
  (k x0 y0 x_final h : F) (xs ye ya : list F) :
  euler_method k x0 y0 x_final h = Ok (xs, ye, ya) ->
  exists n,
    n_steps x0 x_final h = Ok n /\
    forall i : Z, (0 <= i < n)%Z ->
      exists xi yi,
        getitem xs i = Ok xi /\ getitem ye i = Ok yi /\
        getitem ye (i + 1) = Ok (add yi (mul (mul h k) yi)) /\
        getitem xs (i + 1) = Ok (add xi h).
Proof.
  intros He.
  destruct (euler_method_returns _ _ _ _ _ He)
    as (n & Hn & Lx & Ly & La & _ & _ & _ & Ax & Ay & _).
  exists n. split; [exact Hn|]. intros i Hi.
  destruct (@nth_error_lt _ xs (Z.to_nat i)) as [xi Hxi]; [lia|].
  destruct (@nth_error_lt _ ye (Z.to_nat i)) as [yi Hyi]; [lia|].
  exists xi, yi.
  split; [apply getitem_Z; [lia | exact Hxi]|].
  split; [apply getitem_Z; [lia | exact Hyi]|].
  split; (apply getitem_Z; [lia|]);
    replace (Z.to_nat (i + 1)) with (S (Z.to_nat i)) by lia.
  - apply (Ay _ _ Hyi). lia.
  - apply (Ax _ _ Hxi). lia.
Qed.

Lemma euler_method_recurrence_witness :
  euler_method (1 / 10) 0 1 1 (1 / 2) =
  Ok ([0; 1 / 2; 1], [1; 21 / 20; 441 / 400],
      [1; exp (1 / 20); exp (1 / 10)]) /\
  exists n,
    n_steps 0 1 (1 / 2) = Ok n /\
    forall i : Z, (0 <= i < n)%Z ->
      exists xi yi,
        getitem [0; 1 / 2; 1] i = Ok xi /\
        getitem [1; 21 / 20; 441 / 400] i = Ok yi /\
        getitem [1; 21 / 20; 441 / 400] (i + 1) =
          Ok (yi + 1 / 2 * (1 / 10) * yi) /\
        getitem [0; 1 / 2; 1] (i + 1) = Ok (xi + 1 / 2).
Proof.
  split; [exact euler_method_scenario_1|].
  exact (@euler_method_recurrence R R_PyNum (1 / 10) 0 1 1 (1 / 2)
           _ _ _ euler_method_scenario_1).
Defined.

(** C2: whatever the arithmetic, every analytical value [euler_method]
    returns is [y0 * math.exp(k * (x[i] - x0))] evaluated at its own grid
    point [x[i]], for every index [i] from 0 to [n]; no analytical value
    enters another.  For [i >= 1] this is what the loop appends.  Index 0
    holds [y0] itself, which is the closed form at [x0] for finite inputs:
    [x0 - x0] is 0, [math.exp(k * 0)] is 1 and [y0 * 1] is [y0]. *)
Theorem euler_method_analytical_closed_form {F : Type} `{PyNum F}
  (k x0 y0 x_final h : F) (xs ye ya : list F) :
  sub x0 x0 = of_int 0 ->
  math_exp (mul k (of_int 0)) = Ok (of_int 1) ->
  mul y0 (of_int 1) = y0 ->
  euler_method k x0 y0 x_final h = Ok (xs, ye, ya) ->
  exists n,
    n_steps x0 x_final h = Ok n /\
    forall i : Z, (0 <= i <= n)%Z ->
      exists xi e,
        getitem xs i = Ok xi /\
        math_exp (mul k (sub xi x0)) = Ok e /\
        getitem ya i = Ok (mul y0 e).
Proof.
  intros Hsub Hexp Hone He.
  destruct (euler_method_returns _ _ _ _ _ He)
    as (n & Hn & Lx & Ly & La & Hx0 & _ & Ha0 & _ & _ & An).
  exists n. split; [exact Hn|]. intros i Hi.
  destruct (Z.to_nat i) as [|j] eqn:Ej.
  - (* the initial point *)
    assert (i = 0%Z) by lia. subst i.
    exists x0, (of_int 1).
    split; [now apply getitem_Z|].
    split; [now rewrite Hsub|].
    rewrite Hone. now apply getitem_Z.
  - (* a point the loop appended *)
    destruct (@nth_error_lt _ xs (S j)) as [xi Hxi]; [lia|].
    destruct (An j xi Hxi) as (e & Hexp' & Hya).
    exists xi, e.
    split; [apply getitem_Z; [lia | now rewrite Ej]|].
    split; [exact Hexp'|].
    apply getitem_Z; [lia | now rewrite Ej].
Qed.

Lemma euler_method_analytical_closed_form_witness :
  0 - 0 = 0 /\
  @math_exp R R_PyNum (1 / 10 * 0) = Ok 1 /\
  1 * 1 = 1 /\
  euler_method (1 / 10) 0 1 1 (1 / 2) =
  Ok ([0; 1 / 2; 1], [1; 21 / 20; 441 / 400],
      [1; exp (1 / 20); exp (1 / 10)]) /\
  exists n,
    n_steps 0 1 (1 / 2) = Ok n /\
    forall i : Z, (0 <= i <= n)%Z ->
      exists xi e,
        getitem [0; 1 / 2; 1] i = Ok xi /\
        math_exp (1 / 10 * (xi - 0)) = Ok e /\
        getitem [1; exp (1 / 20); exp (1 / 10)] i = Ok (1 * e).
Proof.
  assert (H1 : 0 - 0 = 0) by lra.
  assert (H2 : @math_exp R R_PyNum (1 / 10 * 0) = Ok 1)
    by (cbn [math_exp R_PyNum]; rewrite Rmult_0_r, exp_0; reflexivity).
  assert (H3 : 1 * 1 = 1) by lra.
  split; [exact H1|]. split; [exact H2|]. split; [exact H3|].
  split; [exact euler_method_scenario_1|].
  exact (@euler_method_analytical_closed_form R R_PyNum (1 / 10) 0 1 1 (1 / 2)
           _ _ _ H1 H2 H3 euler_method_scenario_1).
Defined.

(** C4: whatever the arithmetic, the trajectory [euler_method] returns
    starts at the initial condition: [x[0] = x0] and
    [yEuler[0] = yAnalytical[0] = y0]. *)
Theorem euler_method_initial_point {F : Type} `{PyNum F}
  (k x0 y0 x_final h : F) (xs ye ya : list F) :
  euler_method k x0 y0 x_final h = Ok (xs, ye, ya) ->
  getitem xs 0 = Ok x0 /\ getitem ye 0 = Ok y0 /\ getitem ya 0 = Ok y0.
Proof.
  intros He.
  destruct (euler_method_returns _ _ _ _ _ He)
    as (n & _ & _ & _ & _ & Hx0 & Hy0 & Ha0 & _).
  repeat split; now apply getitem_Z.
Qed.

Lemma euler_method_initial_point_witness :
  euler_method (1 / 10) 0 1 1 (1 / 2) =
  Ok ([0; 1 / 2; 1], [1; 21 / 20; 441 / 400],
      [1; exp (1 / 20); exp (1 / 10)]) /\
  getitem [0; 1 / 2; 1] 0 = Ok 0 /\
  getitem [1; 21 / 20; 441 / 400] 0 = Ok 1 /\
  getitem [1; exp (1 / 20); exp (1 / 10)] 0 = Ok 1.
Proof.
  split; [exact euler_method_scenario_1|].
  exact (@euler_method_initial_point R R_PyNum (1 / 10) 0 1 1 (1 / 2)
           _ _ _ euler_method_scenario_1).
Defined.

(** ** euler_method under the laws of the order *)

Section Lawful.

Context {F : Type} `{PyNum F}.

Variable value : F -> R.
Hypothesis laws : ArithLaws value.

Variables k x0 y0 h : F.

(** The step count on valid input: the quotient is a number that is not
    negative and [int] is its floor. *)
Lemma n_steps_valid (x_final q : F) (n : Z) :
  le x_final x0 = false -> le h (of_int 0) = false ->
  truediv (sub x_final x0) h = Ok q -> int q = Ok n ->
  0 <= value q /\ n = Int_part (value q) /\ (0 <= n)%Z.
Proof.
  intros Hx Hh Hq Hn.
  pose proof (law_int_number laws _ Hn) as Nq.
  destruct (law_div_number laws _ _ Hq Nq) as [Nd Nh].
  destruct (law_sub_number laws _ _ Nd) as [Nxf Nx0].
  pose proof (law_le_total laws Nxf Nx0 Hx) as Hle.
  pose proof (law_le_total laws Nh (law_zero_number laws) Hh) as Hh0.
  pose proof (law_sub_nonneg laws _ _ Hle Nd) as Hd.
  pose proof (law_div_nonneg laws _ _ Hd Hh0 Hq Nq) as Hq0.
  pose proof (law_value_nonneg laws _ Hn Hq0) as Hv.
  pose proof (law_int_truncates laws _ Hn) as Ht.
  rewrite R_int_nonneg in Ht by exact Hv.
  split; [exact Hv|]. split; [exact Ht|].
  rewrite Ht. now apply Int_part_nonneg.
Qed.

(** The step count when [x_final <= x0] and [h >= 0]: not positive. *)
Lemma n_steps_nonpos (x_final : F) (n : Z) :
  le (of_int 0) h = true -> le x_final x0 = true ->
  n_steps x0 x_final h = Ok n -> (n <= 0)%Z.
Proof.
  intros Hh Hx Hs. unfold n_steps in Hs.
  destruct (truediv (sub x_final x0) h) as [q|] eqn:Hq; [|discriminate].
  cbn [bind] in Hs.
  pose proof (law_int_number laws _ Hs) as Nq.
  destruct (law_div_number laws _ _ Hq Nq) as [Nd _].
  pose proof (law_sub_nonpos laws _ _ Hx Nd) as Hd.
  pose proof (law_div_nonpos laws _ _ Hd Hh Hq Nq) as Hq0.
  pose proof (law_value_nonpos laws _ Hs Hq0) as Hv.
  rewrite (law_int_truncates laws _ Hs). now apply R_int_nonpos.
Qed.

Hypothesis h_nonneg : le (of_int 0) h = true.
Hypothesis k_nonneg : le (of_int 0) k = true.
Hypothesis y0_nonneg : le (of_int 0) y0 = true.

(** One Euler update of a value that is not negative. *)
Lemma euler_update_increases (y : F) :
  le (of_int 0) y = true -> is_number (add y (mul (mul h k) y)) ->
  le (of_int 0) (add y (mul (mul h k) y)) = true /\
  le y (add y (mul (mul h k) y)) = true.
Proof.
  intros Hy Ny.
  destruct (law_add_number laws _ _ Ny) as [_ Nd].
  destruct (law_mul_number laws _ _ Nd) as [Nhk _].
  pose proof (law_mul_nonneg laws _ _ h_nonneg k_nonneg Nhk) as Hhk.
  pose proof (law_mul_nonneg laws _ _ Hhk Hy Nd) as Hd.
  split; [now apply (law_add_nonneg laws) | now apply (law_add_increasing laws)].
Qed.

(** What a number [y0 * math.exp(k * (x - x0))] says of its parts. *)
Lemma closed_form_parts (x e : F) :
  math_exp (mul k (sub x x0)) = Ok e -> is_number (mul y0 e) ->
  is_number e /\ is_number (mul k (sub x x0)) /\
  is_number (sub x x0) /\ is_number x.
Proof.
  intros He Na.
  destruct (law_mul_number laws _ _ Na) as [_ Ne].
  pose proof (law_exp_number laws _ He Ne) as Nu.
  destruct (law_mul_number laws _ _ Nu) as [_ Nd].
  destruct (law_sub_number laws _ _ Nd) as [Nx _].
  repeat split; assumption.
Qed.

(** The closed form at the first grid point after [x0]. *)
Lemma closed_form_first (e : F) :
  math_exp (mul k (sub (add x0 h) x0)) = Ok e -> is_number (mul y0 e) ->
  le y0 (mul y0 e) = true.
Proof.
  intros He Na.
  destruct (closed_form_parts _ He Na) as (Ne & Nu & Nd & Nx).
  pose proof (law_add_increasing laws x0 _ h_nonneg Nx) as Hx.
  pose proof (law_sub_nonneg laws _ _ Hx Nd) as Hd.
  pose proof (law_mul_nonneg laws _ _ k_nonneg Hd Nu) as Hu.
  pose proof (law_exp_ge_one laws _ Hu He) as H1.
  now apply (law_mul_ge_one laws).
Qed.

(** The closed form at two neighbouring grid points. *)
Lemma closed_form_next (x e e' : F) :
  math_exp (mul k (sub x x0)) = Ok e ->
  math_exp (mul k (sub (add x h) x0)) = Ok e' ->
  is_number (mul y0 e) -> is_number (mul y0 e') ->
  le (mul y0 e) (mul y0 e') = true.
Proof.
  intros He He' Na Na'.
  destruct (closed_form_parts _ He Na) as (Ne & Nu & Nd & Nx).
  destruct (closed_form_parts _ He' Na') as (Ne' & Nu' & Nd' & Nx').
  pose proof (law_add_increasing laws x _ h_nonneg Nx') as Hx.
  pose proof (law_sub_monotone laws _ _ x0 Hx Nd Nd') as Hd.
  pose proof (law_mul_monotone laws _ _ _ k_nonneg Hd Nu Nu') as Hu.
  pose proof (law_exp_monotone laws _ _ Hu He He') as Hee.
  now apply (law_mul_monotone laws).
Qed.

(** Every Euler value of a chain of updates without NaN is not negative. *)
Lemma euler_values_nonneg (ye : list F) :
  nth_error ye 0 = Some y0 ->
  adjacent (fun y => add y (mul (mul h k) y)) ye ->
  (forall y, In y ye -> is_number y) ->
  forall i yi, nth_error ye i = Some yi -> le (of_int 0) yi = true.
Proof.
  intros H0 Adj Num. induction i as [|i IH]; intros yi Hi.
  - rewrite H0 in Hi. now injection Hi as <-.
  - assert (Hlt : (S i < List.length ye)%nat)
      by (apply nth_error_Some; congruence).
    destruct (@nth_error_lt _ ye i) as [y Hy]; [lia|].
    rewrite (Adj _ _ Hy Hlt) in Hi. injection Hi as <-.
    apply euler_update_increases; [now apply IH|].
    apply Num. apply nth_error_In with (S i). now apply Adj.
Qed.

End Lawful.








(** ** create_step_table *)

Section Table.

Context {F : Type} `{PyNum F}.

Variables xs ye ya : list F.
Variables k h : F.

Hypothesis len_ye : List.length ye = List.length xs.
Hypothesis len_ya : List.length ya = List.length xs.

Lemma nth_error_in_range {A : Type} (l : list A) (i : nat) :
  (i < List.length l)%nat -> exists a, nth_error l i = Some a.
Proof.
  intros Hi. destruct (nth_error l i) as [a|] eqn:E; [now exists a|].
  apply nth_error_None in E. lia.
Qed.

Lemma table_body_row (i : nat) (steps_data : list (step_row F)) :
  (i < List.length xs)%nat ->
  exists row,
    table_body xs ye ya k h (Z.of_nat i) steps_data = Ok (steps_data ++ [row]) /\
    row_spec xs ye ya k h i row.
Proof.
  intros Hi.
  destruct (nth_error_in_range xs Hi) as [xi Hxi].
  destruct (@nth_error_in_range _ ye i) as [yi Hyi]; [lia|].
  destruct (@nth_error_in_range _ ya i) as [ai Hai]; [lia|].
  pose proof (getitem_nat _ _ Hxi) as Gx.
  pose proof (getitem_nat _ _ Hyi) as Gy.
  pose proof (getitem_nat _ _ Hai) as Ga.
  unfold table_body. destruct i as [|j].
  - change (Z.of_nat 0 =? 0)%Z with true. cbv iota.
    rewrite Gy, Gx, Ga. cbn [bind].
    eexists. split; [reflexivity|].
    split; [reflexivity|]. exists xi, yi, ai. cbn. repeat split; assumption.
  - destruct (Z.eqb_spec (Z.of_nat (S j)) 0); [lia|].
    destruct (@nth_error_in_range _ ye j) as [yp Hyp]; [lia|].
    pose proof (getitem_nat _ _ Hyp) as Gp.
    replace (Z.of_nat (S j) - 1)%Z with (Z.of_nat j) by lia.
    rewrite Gp, Gx, Gy, Ga. cbn [bind].
    eexists. split; [reflexivity|].
    split; [reflexivity|]. exists xi, yi, ai. cbn. repeat split; try assumption.
    exists yp. repeat split; assumption.
Qed.

Lemma table_loop (n : nat) :
  (n <= List.length xs)%nat ->
  exists rows,
    for_in (range (Z.of_nat n)) (table_body xs ye ya k h) [] = Ok rows /\
    List.length rows = n /\
    forall i, (i < n)%nat ->
      exists row, nth_error rows i = Some row /\ row_spec xs ye ya k h i row.
Proof.
  induction n as [|n IH]; intros Hn.
  - exists []. repeat split. intros i Hi. lia.
  - destruct IH as (rows & Hloop & Hlen & Hrows); [lia|].
    destruct (@table_body_row n rows) as (row & Hbody & Hspec); [lia|].
    exists (rows ++ [row]).
    rewrite range_of_nat_S, for_in_app, Hloop. cbn [bind for_in].
    rewrite Hbody. cbn [bind]. split; [reflexivity|].
    split; [rewrite length_app; cbn [List.length]; lia|].
    intros i Hi. destruct (Nat.eq_dec i n) as [->|Hne].
    + exists row. split; [|exact Hspec].
      now rewrite nth_error_app2, Hlen, Nat.sub_diag by lia.
    + destruct (Hrows i) as (r & Hr & Hs); [lia|].
      exists r. split; [|exact Hs]. now rewrite nth_error_app1 by lia.
Qed.

(** On a trajectory [create_step_table] returns one row per index, each as
    [row_spec] describes it. *)
Lemma create_step_table_rows :
  exists rows,
    create_step_table xs ye ya k h = Ok rows /\
    List.length rows = List.length xs /\
    forall i row, nth_error rows i = Some row -> row_spec xs ye ya k h i row.
Proof.
  destruct (@table_loop (List.length xs)) as (rows & Hloop & Hlen & Hrows);
    [lia|].
  exists rows. split; [exact Hloop|]. split; [exact Hlen|].
  intros i row Hi.
  assert (Hlt : (i < List.length xs)%nat)
    by (rewrite <- Hlen; apply nth_error_Some; congruence).
  destruct (Hrows i Hlt) as (r & Hr & Hs). congruence.
Qed.

End Table.

(** C5: for every trajectory the step table has one record per index, in
    index order; the "Next y" field of row 0 is the text "Initial value";
    the derivative field of a row [i > 0] is [k * yEuler[i-1]], the Euler
    value of the step before. *)
Theorem create_step_table_rows_ok {F : Type} `{PyNum F}
  (xs ye ya : list F) (k h : F) :
  List.length ye = List.length xs -> List.length ya = List.length xs ->
  exists rows,
    create_step_table xs ye ya k h = Ok rows /\
    List.length rows = List.length xs /\
    (forall i row, nth_error rows i = Some row ->
       Step row = Z.of_nat i /\
       exists xi, nth_error xs i = Some xi /\ col_x row = [Value (Fixed 4) xi]) /\
    (forall row, nth_error rows 0 = Some row ->
       col_next_y row = [Text "Initial value"] /\
       forall format, render format (col_next_y row) = "Initial value"%string) /\
    (forall i row, nth_error rows (S i) = Some row ->
       exists y_prev,
         nth_error ye i = Some y_prev /\
         col_dydx row = [Value (Fixed 6) (mul k y_prev)]).
Proof.
  intros Hye Hya.
  destruct (@create_step_table_rows F _ xs ye ya k h Hye Hya)
    as (rows & Hr & Hlen & Hspec).
  exists rows. split; [exact Hr|]. split; [exact Hlen|].
  split; [|split].
  - intros i row Hi.
    destruct (Hspec i row Hi) as (Hs & xi & yi & ai & Hx & _ & _ & Hc & _).
    split; [exact Hs | now exists xi].
  - intros row Hi.
    destruct (Hspec 0%nat row Hi)
      as (_ & xi & yi & ai & _ & _ & _ & _ & _ & _ & _ & _ & Hn).
    split; [exact Hn|]. intros format. now rewrite Hn.
  - intros i row Hi.
    destruct (Hspec (S i) row Hi)
      as (_ & xi & yi & ai & _ & _ & _ & _ & _ & _ & _ & yp & Hp & Hd & _).
    now exists yp.
Qed.

Lemma create_step_table_rows_ok_witness :
  List.length [1; 21 / 20] = List.length [0; 1 / 2] /\
  List.length [1; exp (1 / 20)] = List.length [0; 1 / 2] /\
  exists rows,
    create_step_table [0; 1 / 2] [1; 21 / 20] [1; exp (1 / 20)]
      (1 / 10) (1 / 2) = Ok rows /\
    List.length rows = List.length [0; 1 / 2] /\
    (forall i row, nth_error rows i = Some row ->
       Step row = Z.of_nat i /\
       exists xi, nth_error [0; 1 / 2] i = Some xi /\
                  col_x row = [Value (Fixed 4) xi]) /\
    (forall row, nth_error rows 0 = Some row ->
       col_next_y row = [Text "Initial value"] /\
       forall format, render format (col_next_y row) = "Initial value"%string) /\
    (forall i row, nth_error rows (S i) = Some row ->
       exists y_prev,
         nth_error [1; 21 / 20] i = Some y_prev /\
         col_dydx row = [Value (Fixed 6) (1 / 10 * y_prev)]).
Proof.
  split; [reflexivity|]. split; [reflexivity|].
  apply (@create_step_table_rows_ok R R_PyNum [0; 1 / 2] [1; 21 / 20]
           [1; exp (1 / 20)] (1 / 10) (1 / 2)); reflexivity.
Defined.

(** C9 as stated fails: in the row of step 1 of a two-point trajectory the
    step size in the "Next y" text has no format specification, so the row
    is not printed at fixed precision throughout. *)
Lemma step_table_precision_counterexample :
  exists rows row,
    create_step_table [0; 1 / 2] [1; 21 / 20] [1; exp (1 / 20)]
      (1 / 10) (1 / 2) = Ok rows /\
    nth_error rows 1 = Some row /\
    col_next_y row =
      [Value (Fixed 6) 1; Text " + "; Value Default (1 / 2); Text " × ";
       Value (Fixed 6) (1 / 10 * 1)] /\
    fixed_precision 6 (col_next_y row) = false /\
    row_fixed_precision row = false.
Proof.
  eexists _, _. split; [reflexivity|]. split; [reflexivity|].
  repeat split.
Qed.

(** C9, amended: in every record the x field is the x value printed with 4
    decimals, and the two y fields, the derivative and the error are their
    values printed with 6; the "Next y" field is the text "Initial value"
    in row 0 and, in a row [i > 0], the update formula whose previous Euler
    value and derivative are printed with 6 decimals and whose step size
    [h] is printed with no format specification. *)
Theorem create_step_table_precision {F : Type} `{PyNum F}
  (xs ye ya : list F) (k h : F) :
  List.length ye = List.length xs -> List.length ya = List.length xs ->
  exists rows,
    create_step_table xs ye ya k h = Ok rows /\
    List.length rows = List.length xs /\
    forall i row, nth_error rows i = Some row ->
      exists xi yi ai,
        nth_error xs i = Some xi /\ nth_error ye i = Some yi /\
        nth_error ya i = Some ai /\
        col_x row = [Value (Fixed 4) xi] /\
        col_y_euler row = [Value (Fixed 6) yi] /\
        col_y_analytical row = [Value (Fixed 6) ai] /\
        col_error row = [Value (Fixed 6) (py_abs (sub yi ai))] /\
        match i with
        | O =>
            col_dydx row = [Value (Fixed 6) (mul k yi)] /\
            col_next_y row = [Text "Initial value"]
        | S j =>
            exists y_prev,
              nth_error ye j = Some y_prev /\
              col_dydx row = [Value (Fixed 6) (mul k y_prev)] /\
              col_next_y row =
                [Value (Fixed 6) y_prev; Text " + "; Value Default h;
                 Text " × "; Value (Fixed 6) (mul k y_prev)]
        end.
Proof.
  intros Hye Hya.
  destruct (@create_step_table_rows F _ xs ye ya k h Hye Hya)
    as (rows & Hr & Hlen & Hspec).
  exists rows. split; [exact Hr|]. split; [exact Hlen|].
  intros i row Hi.
  destruct (Hspec i row Hi) as (_ & xi & yi & ai & Hrow).
  now exists xi, yi, ai.
Qed.

Lemma create_step_table_precision_witness :
  List.length [1; 21 / 20] = List.length [0; 1 / 2] /\
  List.length [1; exp (1 / 20)] = List.length [0; 1 / 2] /\
  exists rows,
    create_step_table [0; 1 / 2] [1; 21 / 20] [1; exp (1 / 20)]
      (1 / 10) (1 / 2) = Ok rows /\
    List.length rows = List.length [0; 1 / 2] /\
    forall i row, nth_error rows i = Some row ->
      exists xi yi ai,
        nth_error [0; 1 / 2] i = Some xi /\
        nth_error [1; 21 / 20] i = Some yi /\
        nth_error [1; exp (1 / 20)] i = Some ai /\
        col_x row = [Value (Fixed 4) xi] /\
        col_y_euler row = [Value (Fixed 6) yi] /\
        col_y_analytical row = [Value (Fixed 6) ai] /\
        col_error row = [Value (Fixed 6) (Rabs (yi - ai))] /\
        match i with
        | O =>
            col_dydx row = [Value (Fixed 6) (1 / 10 * yi)] /\
            col_next_y row = [Text "Initial value"]
        | S j =>
            exists y_prev,
              nth_error [1; 21 / 20] j = Some y_prev /\
              col_dydx row = [Value (Fixed 6) (1 / 10 * y_prev)] /\
              col_next_y row =
                [Value (Fixed 6) y_prev; Text " + "; Value Default (1 / 2);
                 Text " × "; Value (Fixed 6) (1 / 10 * y_prev)]
        end.
Proof.
  split; [reflexivity|]. split; [reflexivity|].
  apply (@create_step_table_precision R R_PyNum [0; 1 / 2] [1; 21 / 20]
           [1; exp (1 / 20)] (1 / 10) (1 / 2)); reflexivity.
Defined.

(** ** main *)

(** C6: when [x_final <= x0] or [h <= 0], [main] shows one error message,
    which names the constraint that is violated, and stops: no call of
    [euler_method] is among its events, nothing is computed. *)
Theorem main_rejects_invalid (k x0 y0 x_final h : R) :
  x_final <= x0 \/ h <= 0 ->
  exists msg,
    main k x0 y0 x_final h = ([St_error msg], Ok tt) /\
    existsb is_call_euler_method (fst (main k x0 y0 x_final h)) = false /\
    (x_final <= x0 ->
     msg = "Final x value must be greater than initial x value"%string) /\
    (x0 < x_final -> msg = "Step size must be positive"%string).
Proof.
  intros Hbad. unfold main.
  destruct (Rle_dec x_final x0) as [Hx | Hx].
  - rewrite (le_R_true Hx). eexists. split; [reflexivity|].
    split; [reflexivity|]. split; [reflexivity | lra].
  - assert (Hh : h <= 0) by tauto.
    rewrite le_R_false by lra. change (of_int 0) with 0.
    rewrite (le_R_true Hh).
    eexists. split; [reflexivity|].
    split; [reflexivity|]. split; [contradiction | reflexivity].
Qed.

Lemma main_rejects_invalid_witness :
  (5 <= 5 \/ 1 / 10 <= 0) /\
  exists msg,
    main (1 / 10) 5 1 5 (1 / 10) = ([St_error msg], Ok tt) /\
    existsb is_call_euler_method (fst (main (1 / 10) 5 1 5 (1 / 10))) = false /\
    (5 <= 5 ->
     msg = "Final x value must be greater than initial x value"%string) /\
    (5 < 5 -> msg = "Step size must be positive"%string).
Proof.
  assert (Hbad : 5 <= 5 \/ 1 / 10 <= 0) by (left; lra).
  split; [exact Hbad|].
  exact (@main_rejects_invalid (1 / 10) 5 1 5 (1 / 10) Hbad).
Defined.

(** The relative error on the reals, from the last elements of the two
    sequences. *)
Lemma relative_error_R (ye ya : list R) (e a : R) :
  getitem ye (-1) = Ok e -> getitem ya (-1) = Ok a ->
  exists fe,
    final_error ye ya = Ok fe /\ fe = Rabs (e - a) /\
    (a <> 0 -> relative_error fe ya = Ok (Rabs fe / Rabs a * 100)) /\
    (a = 0 -> relative_error fe ya = Ok 0).
Proof.
  intros He Ha. exists (Rabs (e - a)).
  unfold final_error, relative_error. rewrite He, Ha. cbn [bind].
  split; [reflexivity|]. split; [reflexivity|].
  cbn [ne truediv mul py_abs of_int R_PyNum].
  destruct (Req_dec_T a 0) as [Hz | Hz]; split; intros Hc;
    try contradiction; try reflexivity.
  destruct (Req_dec_T (Rabs a) 0) as [Habs | Habs].
  - exfalso. now apply (Rabs_no_R0 a).
  - cbn [bind]. now rewrite Rabs_Rabsolu.
Qed.

(** C7: the relative error is [|final_error| / |y_analytical[-1]| * 100]
    when the last analytical value is not zero and exactly 0 when it is;
    no [ZeroDivisionError] is raised in either case. *)
Theorem relative_error_ok (ye ya : list R) (e a : R) :
  getitem ye (-1) = Ok e -> getitem ya (-1) = Ok a ->
  exists fe,
    final_error ye ya = Ok fe /\ fe = Rabs (e - a) /\
    (a <> 0 -> relative_error fe ya = Ok (Rabs fe / Rabs a * 100)) /\
    (a = 0 -> relative_error fe ya = Ok 0).
Proof. exact (@relative_error_R ye ya e a). Qed.

Lemma relative_error_ok_witness :
  getitem [1; 3] (-1) = Ok 3 /\ getitem [1; 2] (-1) = Ok 2 /\
  exists fe,
    final_error [1; 3] [1; 2] = Ok fe /\ fe = Rabs (3 - 2) /\
    (2 <> 0 -> relative_error fe [1; 2] = Ok (Rabs fe / Rabs 2 * 100)) /\
    (2 = 0 -> relative_error fe [1; 2] = Ok 0).
Proof.
  split; [reflexivity|]. split; [reflexivity|].
  apply (@relative_error_ok [1; 3] [1; 2] 3 2); reflexivity.
Defined.

(** The derivative shown in row 1 is that of step 0, which differs from the
    derivative at row 1's own Euler value. *)
Example step_table_derivative_of_previous_step :
  exists rows row,
    create_step_table [0; 1 / 2] [1; 21 / 20] [1; exp (1 / 20)]
      (1 / 10) (1 / 2) = Ok rows /\
    nth_error rows 1 = Some row /\
    col_dydx row = [Value (Fixed 6) (1 / 10 * 1)] /\
    1 / 10 * 1 <> 1 / 10 * (21 / 20).
Proof.
  eexists _, _. split; [reflexivity|]. split; [reflexivity|].
  split; [reflexivity | lra].
Qed.


(** * Further properties *)

(** ** Indexing and ranges *)

Lemma getitem_out_of_range {A : Type} (l : list A) (i : nat) :
  (List.length l <= i)%nat -> getitem l (Z.of_nat i) = Raise IndexError.
Proof.
  intros Hi. unfold getitem.
  destruct (Z.ltb_spec (Z.of_nat i) 0); [lia|].
  destruct (Z.ltb_spec (Z.of_nat i) 0); [lia|].
  destruct (Z.leb_spec (Z.of_nat (List.length l)) (Z.of_nat i)); [|lia].
  reflexivity.
Qed.

Lemma range_split (m n : nat) :
  (m <= n)%nat ->
  range (Z.of_nat n) =
  range (Z.of_nat m) ++ Z.of_nat m :: map Z.of_nat (seq (S m) (n - S m))
  \/ m = n.
Proof.
  intros Hmn. destruct (Nat.eq_dec m n) as [->|Hne]; [now right|left].
  unfold range. rewrite !Nat2Z.id.
  replace n with (m + S (n - S m))%nat at 1 by lia.
  rewrite seq_app, map_app. reflexivity.
Qed.

Lemma for_in_raise {S : Type} (body : Z -> S -> result S) (l1 l2 : list Z)
  (i : Z) (s s1 : S) (e : exn) :
  for_in l1 body s = Ok s1 -> body i s1 = Raise e ->
  for_in (l1 ++ i :: l2) body s = Raise e.
Proof.
  intros H1 Hb. rewrite for_in_app, H1. cbn [bind for_in]. now rewrite Hb.
Qed.

(** ** create_step_table on lists of any lengths *)

Section TableLengths.

Context {F : Type} `{PyNum F}.

Variables xs ye ya : list F.
Variables k h : F.

Lemma table_body_in_range (i : nat) (steps_data : list (step_row F)) :
  (i < List.length xs)%nat -> (i < List.length ye)%nat ->
  (i < List.length ya)%nat ->
  exists row,
    table_body xs ye ya k h (Z.of_nat i) steps_data = Ok (steps_data ++ [row]) /\
    row_spec xs ye ya k h i row.
Proof.
  intros Hx Hy Ha.
  destruct (nth_error_lt xs Hx) as [xi Hxi].
  destruct (nth_error_lt ye Hy) as [yi Hyi].
  destruct (nth_error_lt ya Ha) as [ai Hai].
  pose proof (getitem_nat _ _ Hxi) as Gx.
  pose proof (getitem_nat _ _ Hyi) as Gy.
  pose proof (getitem_nat _ _ Hai) as Ga.
  unfold table_body. destruct i as [|j].
  - change (Z.of_nat 0 =? 0)%Z with true. cbv iota.
    rewrite Gy, Gx, Ga. cbn [bind].
    eexists. split; [reflexivity|].
    split; [reflexivity|]. exists xi, yi, ai. cbn. repeat split; assumption.
  - destruct (Z.eqb_spec (Z.of_nat (S j)) 0); [lia|].
    destruct (@nth_error_lt _ ye j) as [yp Hyp]; [lia|].
    pose proof (getitem_nat _ _ Hyp) as Gp.
    replace (Z.of_nat (S j) - 1)%Z with (Z.of_nat j) by lia.
    rewrite Gp, Gx, Gy, Ga. cbn [bind].
    eexists. split; [reflexivity|].
    split; [reflexivity|]. exists xi, yi, ai. cbn. repeat split; try assumption.
    exists yp. repeat split; assumption.
Qed.

Lemma table_body_short (i : nat) (steps_data : list (step_row F)) :
  (i < List.length xs)%nat ->
  (List.length ye <= i)%nat \/ (List.length ya <= i)%nat ->
  table_body xs ye ya k h (Z.of_nat i) steps_data = Raise IndexError.
Proof.
  intros Hx Hshort.
  destruct (nth_error_lt xs Hx) as [xi Hxi].
  pose proof (getitem_nat _ _ Hxi) as Gx.
  unfold table_body.
  destruct (Nat.le_gt_cases (List.length ye) i) as [Hy | Hy].
  - (* y_euler[i] is out of range *)
    pose proof (getitem_out_of_range ye Hy) as Gy.
    destruct i as [|j].
    + change (Z.of_nat 0 =? 0)%Z with true. cbv iota. now rewrite Gy.
    + destruct (Z.eqb_spec (Z.of_nat (S j)) 0); [lia|].
      replace (Z.of_nat (S j) - 1)%Z with (Z.of_nat j) by lia.
      destruct (Nat.le_gt_cases (List.length ye) j) as [Hj | Hj].
      * now rewrite (getitem_out_of_range ye Hj).
      * destruct (nth_error_lt ye Hj) as [yp Hyp].
        rewrite (getitem_nat _ _ Hyp). cbn [bind].
        rewrite Gx. cbn [bind]. now rewrite Gy.
  - (* y_euler[i] is there, y_analytical[i] is not *)
    assert (Ha : (List.length ya <= i)%nat) by lia.
    pose proof (getitem_out_of_range ya Ha) as Ga.
    destruct (nth_error_lt ye Hy) as [yi Hyi].
    pose proof (getitem_nat _ _ Hyi) as Gy.
    destruct i as [|j].
    + change (Z.of_nat 0 =? 0)%Z with true. cbv iota.
      rewrite Gy, Gx. cbn [bind]. now rewrite Ga.
    + destruct (Z.eqb_spec (Z.of_nat (S j)) 0); [lia|].
      replace (Z.of_nat (S j) - 1)%Z with (Z.of_nat j) by lia.
      destruct (@nth_error_lt _ ye j) as [yp Hyp]; [lia|].
      rewrite (getitem_nat _ _ Hyp), Gx, Gy. cbn [bind]. now rewrite Ga.
Qed.

Lemma table_loop_upto (n : nat) :
  (n <= List.length xs)%nat -> (n <= List.length ye)%nat ->
  (n <= List.length ya)%nat ->
  exists rows,
    for_in (range (Z.of_nat n)) (table_body xs ye ya k h) [] = Ok rows /\
    List.length rows = n /\
    forall i, (i < n)%nat ->
      exists row, nth_error rows i = Some row /\ row_spec xs ye ya k h i row.
Proof.
  induction n as [|n IH]; intros Hx Hy Ha.
  - exists []. repeat split. intros i Hi. lia.
  - destruct IH as (rows & Hloop & Hlen & Hrows); [lia | lia | lia |].
    destruct (@table_body_in_range n rows) as (row & Hbody & Hspec);
      [lia | lia | lia |].
    exists (rows ++ [row]).
    rewrite range_of_nat_S, for_in_app, Hloop. cbn [bind for_in].
    rewrite Hbody. cbn [bind]. split; [reflexivity|].
    split; [rewrite length_app; cbn [List.length]; lia|].
    intros i Hi. destruct (Nat.eq_dec i n) as [->|Hne].
    + exists row. split; [|exact Hspec].
      now rewrite nth_error_app2, Hlen, Nat.sub_diag by lia.
    + destruct (Hrows i) as (r & Hr & Hs); [lia|].
      exists r. split; [|exact Hs]. now rewrite nth_error_app1 by lia.
Qed.

Lemma create_step_table_long :
  (List.length xs <= List.length ye)%nat ->
  (List.length xs <= List.length ya)%nat ->
  exists rows,
    create_step_table xs ye ya k h = Ok rows /\
    List.length rows = List.length xs /\
    forall i row, nth_error rows i = Some row -> row_spec xs ye ya k h i row.
Proof.
  intros Hy Ha.
  destruct (@table_loop_upto (List.length xs)) as (rows & Hloop & Hlen & Hrows);
    [lia | lia | lia |].
  exists rows. split; [exact Hloop|]. split; [exact Hlen|].
  intros i row Hi.
  assert (Hlt : (i < List.length xs)%nat)
    by (rewrite <- Hlen; apply nth_error_Some; congruence).
  destruct (Hrows i Hlt) as (r & Hr & Hs). congruence.
Qed.

Lemma create_step_table_short :
  (List.length ye < List.length xs)%nat \/
  (List.length ya < List.length xs)%nat ->
  create_step_table xs ye ya k h = Raise IndexError.
Proof.
  intros Hshort.
  set (m := Nat.min (List.length ye) (List.length ya)).
  assert (Hm : (m < List.length xs)%nat) by lia.
  destruct (@table_loop_upto m) as (rows & Hloop & _); [lia | lia | lia |].
  unfold create_step_table.
  destruct (@range_split m (List.length xs)) as [-> | Heq]; [lia | | lia].
  apply for_in_raise with (s1 := rows); [exact Hloop|].
  apply table_body_short; lia.
Qed.

End TableLengths.

(** X1: [create_step_table] returns a table with one row per element of
    [x_values] exactly when [y_euler] and [y_analytical] are at least as
    long as [x_values] (what they hold beyond that length is not read);
    when one of them is shorter it raises [IndexError] and no partial table
    is returned. *)
Theorem create_step_table_outcome {F : Type} `{PyNum F}
  (xs ye ya : list F) (k h : F) :
  ((List.length xs <= List.length ye)%nat /\
   (List.length xs <= List.length ya)%nat /\
   exists rows,
     create_step_table xs ye ya k h = Ok rows /\
     List.length rows = List.length xs) \/
  (((List.length ye < List.length xs)%nat \/
    (List.length ya < List.length xs)%nat) /\
   create_step_table xs ye ya k h = Raise IndexError).
Proof.
  destruct (Nat.le_gt_cases (List.length xs) (List.length ye)) as [Hy | Hy];
    [destruct (Nat.le_gt_cases (List.length xs) (List.length ya)) as [Ha | Ha]|].
  - left. split; [exact Hy|]. split; [exact Ha|].
    destruct (@create_step_table_long F _ xs ye ya k h Hy Ha)
      as (rows & Hr & Hlen & _).
    now exists rows.
  - right. split; [now right|]. apply create_step_table_short. now right.
  - right. split; [now left|]. apply create_step_table_short. now left.
Qed.

(** ** The error sequence *)

Section ErrorsLoop.

Context {F : Type} `{PyNum F}.

Variables xs ye ya : list F.

Lemma errors_loop (n : nat) :
  (n <= List.length ye)%nat -> (n <= List.length ya)%nat ->
  exists errs,
    for_in (range (Z.of_nat n))
      (fun i acc =>
         e <- getitem ye i ;; a <- getitem ya i ;;
         Ok (acc ++ [py_abs (sub e a)]))%py [] = Ok errs /\
    List.length errs = n /\
    forall i yi ai,
      nth_error ye i = Some yi -> nth_error ya i = Some ai -> (i < n)%nat ->
      nth_error errs i = Some (py_abs (sub yi ai)).
Proof.
  induction n as [|n IH]; intros Hy Ha.
  - exists []. repeat split. intros i yi ai _ _ Hi. lia.
  - destruct IH as (errs & Hloop & Hlen & Hnth); [lia | lia |].
    destruct (@nth_error_lt _ ye n) as [yn Hyn]; [lia|].
    destruct (@nth_error_lt _ ya n) as [an Han]; [lia|].
    exists (errs ++ [py_abs (sub yn an)]).
    rewrite range_of_nat_S, for_in_app, Hloop. cbn [bind for_in].
    rewrite (getitem_nat _ _ Hyn), (getitem_nat _ _ Han). cbn [bind].
    split; [reflexivity|].
    split; [rewrite length_app; cbn [List.length]; lia|].
    intros i yi ai Hyi Hai Hi. destruct (Nat.eq_dec i n) as [->|Hne].
    + rewrite nth_error_app2, Hlen, Nat.sub_diag by lia.
      cbn [nth_error]. congruence.
    + rewrite nth_error_app1 by lia. apply Hnth; [assumption | assumption | lia].
Qed.

Lemma errors_long :
  (List.length xs <= List.length ye)%nat ->
  (List.length xs <= List.length ya)%nat ->
  exists errs,
    errors xs ye ya = Ok errs /\
    List.length errs = List.length xs /\
    forall i yi ai,
      nth_error ye i = Some yi -> nth_error ya i = Some ai ->
      (i < List.length xs)%nat ->
      nth_error errs i = Some (py_abs (sub yi ai)).
Proof. intros Hy Ha. now apply errors_loop. Qed.

End ErrorsLoop.

(** X2: for sequences of one length the error sequence has that length and
    its element [i] is [abs(y_euler[i] - y_analytical[i])], the value the
    table's Error column prints in row [i]. *)
Theorem errors_match_table {F : Type} `{PyNum F}
  (xs ye ya : list F) (k h : F) :
  List.length ye = List.length xs -> List.length ya = List.length xs ->
  exists errs rows,
    errors xs ye ya = Ok errs /\
    create_step_table xs ye ya k h = Ok rows /\
    List.length errs = List.length xs /\
    List.length rows = List.length xs /\
    forall i err row,
      nth_error errs i = Some err -> nth_error rows i = Some row ->
      col_error row = [Value (Fixed 6) err] /\
      exists yi ai,
        nth_error ye i = Some yi /\ nth_error ya i = Some ai /\
        err = py_abs (sub yi ai).
Proof.
  intros Hy Ha.
  destruct (@errors_long F _ xs ye ya) as (errs & He & Hle & Hnth); [lia | lia |].
  destruct (@create_step_table_long F _ xs ye ya k h)
    as (rows & Hr & Hlr & Hspec); [lia | lia |].
  exists errs, rows. repeat (split; [assumption|]).
  intros i err row Hi Hrow.
  destruct (Hspec i row Hrow)
    as (_ & xi & yi & ai & Hxi & Hyi & Hai & _ & _ & _ & Hcol & _).
  assert (Hlt : (i < List.length xs)%nat)
    by (apply nth_error_Some; congruence).
  rewrite (Hnth i yi ai Hyi Hai Hlt) in Hi. injection Hi as <-.
  split; [exact Hcol|]. now exists yi, ai.
Qed.

Lemma errors_match_table_witness :
  List.length [1; 21 / 20] = List.length [0; 1 / 2] /\
  List.length [1; exp (1 / 20)] = List.length [0; 1 / 2] /\
  exists errs rows,
    errors [0; 1 / 2] [1; 21 / 20] [1; exp (1 / 20)] = Ok errs /\
    create_step_table [0; 1 / 2] [1; 21 / 20] [1; exp (1 / 20)]
      (1 / 10) (1 / 2) = Ok rows /\
    List.length errs = List.length [0; 1 / 2] /\
    List.length rows = List.length [0; 1 / 2] /\
    forall i err row,
      nth_error errs i = Some err -> nth_error rows i = Some row ->
      col_error row = [Value (Fixed 6) err] /\
      exists yi ai,
        nth_error [1; 21 / 20] i = Some yi /\
        nth_error [1; exp (1 / 20)] i = Some ai /\
        err = Rabs (yi - ai).
Proof.
  split; [reflexivity|]. split; [reflexivity|].
  apply (@errors_match_table R R_PyNum [0; 1 / 2] [1; 21 / 20]
           [1; exp (1 / 20)] (1 / 10) (1 / 2)); reflexivity.
Defined.

(** X3: whatever the arithmetic, when [euler_method] returns, its three
    lists have one common length [n + 1] ([n] the step count, 0 when it is
    negative), and both [create_step_table] and the error sequence accept
    them: neither raises [IndexError], each yields [n + 1] entries. *)
Theorem euler_method_output_accepted {F : Type} `{PyNum F}
  (k x0 y0 x_final h : F) (xs ye ya : list F) :
  euler_method k x0 y0 x_final h = Ok (xs, ye, ya) ->
  exists n rows errs,
    n_steps x0 x_final h = Ok n /\
    List.length xs = S (Z.to_nat n) /\
    List.length ye = S (Z.to_nat n) /\
    List.length ya = S (Z.to_nat n) /\
    create_step_table xs ye ya k h = Ok rows /\
    List.length rows = S (Z.to_nat n) /\
    errors xs ye ya = Ok errs /\
    List.length errs = S (Z.to_nat n).
Proof.
  intros He.
  destruct (euler_method_returns _ _ _ _ _ He)
    as (n & Hn & Lx & Ly & La & _).
  destruct (@create_step_table_long F _ xs ye ya k h)
    as (rows & Hr & Hlr & _); [lia | lia |].
  destruct (@errors_long F _ xs ye ya) as (errs & Hes & Hle & _); [lia | lia |].
  exists n, rows, errs. repeat split; try assumption; congruence.
Qed.

Lemma euler_method_output_accepted_witness :
  euler_method (1 / 10) 0 1 1 (1 / 2) =
  Ok ([0; 1 / 2; 1], [1; 21 / 20; 441 / 400],
      [1; exp (1 / 20); exp (1 / 10)]) /\
  exists n rows errs,
    n_steps 0 1 (1 / 2) = Ok n /\
    List.length [0; 1 / 2; 1] = S (Z.to_nat n) /\
    List.length [1; 21 / 20; 441 / 400] = S (Z.to_nat n) /\
    List.length [1; exp (1 / 20); exp (1 / 10)] = S (Z.to_nat n) /\
    create_step_table [0; 1 / 2; 1] [1; 21 / 20; 441 / 400]
      [1; exp (1 / 20); exp (1 / 10)] (1 / 10) (1 / 2) = Ok rows /\
    List.length rows = S (Z.to_nat n) /\
    errors [0; 1 / 2; 1] [1; 21 / 20; 441 / 400]
      [1; exp (1 / 20); exp (1 / 10)] = Ok errs /\
    List.length errs = S (Z.to_nat n).
Proof.
  split; [exact euler_method_scenario_1|].
  exact (@euler_method_output_accepted R R_PyNum (1 / 10) 0 1 1 (1 / 2)
           _ _ _ euler_method_scenario_1).
Defined.

(** X17: whatever the arithmetic (floating point included), when
    [euler_method] returns, the lists start with [x0], [y0], [y0]; each
    later grid point is the one before plus [h], each later Euler value is
    [y + (h*k)*y] of the one before, and each later analytical value is
    [y0] times [math.exp] of [k * (x - x0)] at its own grid point, which
    did not raise. *)
Theorem euler_method_any_arithmetic {F : Type} `{PyNum F}
  (k x0 y0 x_final h : F) (xs ye ya : list F) :
  euler_method k x0 y0 x_final h = Ok (xs, ye, ya) ->
  nth_error xs 0 = Some x0 /\ nth_error ye 0 = Some y0 /\
  nth_error ya 0 = Some y0 /\
  (forall i xi, nth_error xs i = Some xi -> (S i < List.length xs)%nat ->
     nth_error xs (S i) = Some (add xi h)) /\
  (forall i yi, nth_error ye i = Some yi -> (S i < List.length ye)%nat ->
     nth_error ye (S i) = Some (add yi (mul (mul h k) yi))) /\
  (forall i xi, nth_error xs (S i) = Some xi ->
     exists e, math_exp (mul k (sub xi x0)) = Ok e /\
               nth_error ya (S i) = Some (mul y0 e)).
Proof.
  intros He.
  destruct (euler_method_returns _ _ _ _ _ He)
    as (n & _ & _ & _ & _ & Hx0 & Hy0 & Ha0 & Ax & Ay & An).
  split; [exact Hx0|]. split; [exact Hy0|]. split; [exact Ha0|].
  split; [exact Ax|]. split; [exact Ay | exact An].
Qed.

Lemma euler_method_any_arithmetic_witness :
  euler_method (1 / 10) 0 1 1 (1 / 2) =
  Ok ([0; 1 / 2; 1], [1; 21 / 20; 441 / 400],
      [1; exp (1 / 20); exp (1 / 10)]) /\
  nth_error [0; 1 / 2; 1] 0 = Some 0 /\
  nth_error [1; 21 / 20; 441 / 400] 0 = Some 1 /\
  nth_error [1; exp (1 / 20); exp (1 / 10)] 0 = Some 1 /\
  (forall i xi, nth_error [0; 1 / 2; 1] i = Some xi ->
     (S i < List.length [0; 1 / 2; 1])%nat ->
     nth_error [0; 1 / 2; 1] (S i) = Some (xi + 1 / 2)) /\
  (forall i yi, nth_error [1; 21 / 20; 441 / 400] i = Some yi ->
     (S i < List.length [1; 21 / 20; 441 / 400])%nat ->
     nth_error [1; 21 / 20; 441 / 400] (S i) =
     Some (yi + 1 / 2 * (1 / 10) * yi)) /\
  (forall i xi, nth_error [0; 1 / 2; 1] (S i) = Some xi ->
     exists e, math_exp (1 / 10 * (xi - 0)) = Ok e /\
               nth_error [1; exp (1 / 20); exp (1 / 10)] (S i) =
               Some (1 * e)).
Proof.
  split; [exact euler_method_scenario_1|].
  exact (@euler_method_any_arithmetic R R_PyNum (1 / 10) 0 1 1 (1 / 2)
           _ _ _ euler_method_scenario_1).
Defined.

(** ** More of euler_method and main over any arithmetic *)

(** X4: on doubles, called with a step size of zero of either sign,
    [euler_method] raises [ZeroDivisionError] from the division of the step
    count, whatever the other arguments are and whatever the C library's
    [exp] is: no point is computed. *)
Theorem euler_method_zero_step (libm_exp : float -> float)
  (k x0 y0 x_final : float) :
  @euler_method float (float_PyNum libm_exp) k x0 y0 x_final 0%float =
    Raise ZeroDivisionError /\
  @euler_method float (float_PyNum libm_exp) k x0 y0 x_final (-0)%float =
    Raise ZeroDivisionError.
Proof. split; reflexivity. Qed.

(** X8: whatever the arithmetic, when the update leaves [y0] unchanged,
    that is when [y0 + (h*k)*y0] evaluates to [y0] (as with [k = 0], with
    [y0 = 0], or with an increment too small to change [y0]), every Euler
    value [euler_method] returns is [y0]; and when [y0 * math.exp(k*(x-x0))]
    evaluates to [y0] at every grid point, so is every analytical value. *)
Theorem euler_method_fixed_point {F : Type} `{PyNum F}
  (k x0 y0 x_final h : F) (xs ye ya : list F) :
  add y0 (mul (mul h k) y0) = y0 ->
  euler_method k x0 y0 x_final h = Ok (xs, ye, ya) ->
  (forall i yi, nth_error ye i = Some yi -> yi = y0) /\
  ((forall x e, In x xs -> math_exp (mul k (sub x x0)) = Ok e ->
      mul y0 e = y0) ->
   forall i ai, nth_error ya i = Some ai -> ai = y0).
Proof.
  intros Hfix He.
  destruct (euler_method_returns _ _ _ _ _ He)
    as (n & _ & _ & _ & _ & _ & Hy0 & Ha0 & _ & Ay & An).
  split.
  - induction i as [|i IH]; intros yi Hi; [congruence|].
    assert (Hlt : (S i < List.length ye)%nat)
      by (apply nth_error_Some; congruence).
    destruct (@nth_error_lt _ ye i) as [y Hy]; [lia|].
    rewrite (Ay _ _ Hy Hlt) in Hi. injection Hi as <-.
    now rewrite (IH y Hy).
  - intros Hcf [|i] ai Hi; [congruence|].
    assert (Hlt : (S i < List.length xs)%nat).
    { destruct (euler_method_returns _ _ _ _ _ He)
        as (n' & _ & _ & _ & La & _).
      rewrite <- La. apply nth_error_Some. congruence. }
    destruct (@nth_error_lt _ xs (S i)) as [x Hx]; [exact Hlt|].
    destruct (An i x Hx) as (e & Hexp & Hya).
    rewrite Hya in Hi. injection Hi as <-.
    apply (Hcf x e); [now apply nth_error_In with (S i) | exact Hexp].
Qed.

Lemma euler_method_fixed_point_witness :
  3 + 1 / 2 * 0 * 3 = 3 /\
  euler_method 0 0 3 1 (1 / 2) = Ok ([0; 1 / 2; 1], [3; 3; 3], [3; 3; 3]) /\
  (forall i yi, nth_error [3; 3; 3] i = Some yi -> yi = 3) /\
  ((forall x e, In x [0; 1 / 2; 1] -> math_exp (0 * (x - 0)) = Ok e ->
      3 * e = 3) ->
   forall i ai, nth_error [3; 3; 3] i = Some ai -> ai = 3).
Proof.
  assert (H1 : 3 + 1 / 2 * 0 * 3 = 3) by lra.
  split; [exact H1|]. split; [exact euler_method_scenario_constant|].
  exact (@euler_method_fixed_point R R_PyNum 0 0 3 1 (1 / 2) _ _ _ H1
           euler_method_scenario_constant).
Defined.

(** Nothing [show_results] does is a call of the integrator or an error
    message. *)
Lemma show_results_events {F : Type} `{PyNum F}
  (xs ye ya : list F) (k h : F) :
  existsb is_call_euler_method (fst (show_results xs ye ya k h)) = false /\
  existsb is_st_error (fst (show_results xs ye ya k h)) = false.
Proof.
  unfold show_results.
  destruct (getitem ye (-1)) as [e_last|]; [|now split].
  destruct (getitem ya (-1)) as [a_last|]; [|now split].
  destruct (fe <- final_error ye ya ;; re <- relative_error fe ya ;;
            Ok (fe, re))%py as [[fe re]|]; [|now split].
  destruct (create_step_table xs ye ya k h) as [rows|]; [|now split].
  destruct (20 <? List.length rows)%nat; now split.
Qed.

(** X16: whatever the arithmetic, when both checks of [main] pass
    ([x_final <= x0] and [h <= 0] are false), [main] calls [euler_method]
    exactly once, with the five form values unchanged and before any
    metric or table, and shows no error message; when that call raises,
    [main] has no handler: nothing more is shown and the exception
    propagates. *)
Theorem main_calls_integrator_once {F : Type} `{PyNum F}
  (k x0 y0 x_final h : F) :
  le x_final x0 = false -> le h (of_int 0) = false ->
  exists rest,
    fst (main k x0 y0 x_final h) =
      Call_euler_method k x0 y0 x_final h :: rest /\
    existsb is_call_euler_method rest = false /\
    existsb is_st_error (fst (main k x0 y0 x_final h)) = false /\
    forall e, euler_method k x0 y0 x_final h = Raise e ->
      main k x0 y0 x_final h =
        ([Call_euler_method k x0 y0 x_final h], Raise e).
Proof.
  intros Hx Hh. unfold main. rewrite Hx, Hh.
  destruct (euler_method k x0 y0 x_final h) as [[[xs ye] ya]|e].
  - destruct (show_results_events xs ye ya k h) as [Hc Hs].
    destruct (show_results xs ye ya k h) as [t' r]. cbn [fst] in *.
    exists t'. split; [reflexivity|]. split; [exact Hc|].
    split; [exact Hs | discriminate].
  - exists []. split; [reflexivity|]. split; [reflexivity|].
    split; [reflexivity|]. intros e' E. now injection E as <-.
Qed.

Lemma main_calls_integrator_once_witness :
  @le R R_PyNum 1 0 = false /\ @le R R_PyNum (1 / 2) (of_int 0) = false /\
  exists rest,
    fst (main (1 / 10) 0 1 1 (1 / 2)) =
      Call_euler_method (1 / 10) 0 1 1 (1 / 2) :: rest /\
    existsb is_call_euler_method rest = false /\
    existsb is_st_error (fst (main (1 / 10) 0 1 1 (1 / 2))) = false /\
    forall e, euler_method (1 / 10) 0 1 1 (1 / 2) = Raise e ->
      main (1 / 10) 0 1 1 (1 / 2) =
        ([Call_euler_method (1 / 10) 0 1 1 (1 / 2)], Raise e).
Proof.
  assert (H1 : @le R R_PyNum 1 0 = false) by (apply le_R_false; lra).
  assert (H2 : @le R R_PyNum (1 / 2) (of_int 0) = false)
    by (apply le_R_false; cbn [of_int R_PyNum]; lra).
  split; [exact H1|]. split; [exact H2|].
  exact (@main_calls_integrator_once R R_PyNum (1 / 10) 0 1 1 (1 / 2) H1 H2).
Defined.

(** ** Concrete runs on doubles *)

Section FloatRuns.

Variable libm_exp : float -> float.

(** [int] takes the quotient the doubles give: [(0.3 - 0.0) / 0.1] is just
    below 3, two steps. *)
Example n_steps_three_tenths :
  @n_steps float (float_PyNum libm_exp) 0%float 0.3%float 0.1%float = Ok 2%Z.
Proof. reflexivity. Qed.

(** [1.0 / 0.1] and [2.0 / 0.1] are exactly 10 and 20 on doubles. *)
Example n_steps_one_tenth :
  @n_steps float (float_PyNum libm_exp) 0%float 1%float 0.1%float = Ok 10%Z /\
  @n_steps float (float_PyNum libm_exp) 0%float 2%float 0.1%float = Ok 20%Z.
Proof. split; reflexivity. Qed.

(** [int] truncates toward zero on doubles too. *)
Example float_int_truncates :
  float_int 2.5%float = 2%Z /\ float_int (-2.5)%float = (-2)%Z.
Proof. split; reflexivity. Qed.

(** An infinite quotient and a NaN make [int] raise. *)
Example n_steps_raises :
  @n_steps float (float_PyNum libm_exp) 0%float 1%float 5e-324%float =
    Raise OverflowError /\
  @n_steps float (float_PyNum libm_exp) 0%float 1%float nan =
    Raise ValueError.
Proof. split; reflexivity. Qed.

(** A step size that does not divide the interval: [h = 0.4] on [0, 1]
    gives two steps and the grid ends at 0.8, short of 1. *)
Example grid_falls_short :
  @n_steps float (float_PyNum libm_exp) 0%float 1%float 0.4%float = Ok 2%Z /\
  PrimFloat.add (PrimFloat.add 0 0.4) 0.4 = 0.8%float /\
  PrimFloat.ltb 0.8 1 = true.
Proof. repeat split; reflexivity. Qed.

(** The grid is built by repeated addition, which rounds: three steps of
    0.63 from 0 end above 1.89. *)
Example grid_overshoots :
  PrimFloat.ltb 1.89 (PrimFloat.add (PrimFloat.add (PrimFloat.add 0 0.63) 0.63) 0.63) = true.
Proof. reflexivity. Qed.

End FloatRuns.

(** With [k = 1000] on [0, 1] and [h = 1], where the C library's [exp]
    returns infinity, [math.exp] raises [OverflowError] at the first grid
    point and [main] lets it through. *)
Example main_overflow :
  @main float (float_PyNum (fun _ => infinity)) 1000%float 0%float 1%float
    1%float 1%float =
  ([Call_euler_method 1000%float 0%float 1%float 1%float 1%float],
   Raise OverflowError).
Proof. reflexivity. Qed.
